(** * MSO to StormAudio filter converter: a shallow embedding of [convert.py]

    The development follows the layout of the script: the string
    primitives of Python that the script relies on, the block extractor,
    the filter parser with its record selector, the format emitter and the
    conversion orchestrator; the theorems come afterwards.

    Conventions of the model.
    - A Python [str] is a [string]; a character is a code point in the
      range 0..255, on which [str.lower], [str.isspace] and the class [\d]
      are the functions written out below.
    - A Python exception is a value of [exn]; a function that may raise
      returns a [result].
    - [float], its parser [float(...)] and its rendering in an f-string are
      parameters of the sections that need them. *)

From Stdlib Require Import Strings.String Strings.Ascii.
From Stdlib Require Import Lists.List Bool.Bool Arith.Arith micromega.Lia.
From Stdlib Require Import Numbers.DecimalString.
Import ListNotations.

Local Open Scope list_scope.
Local Open Scope string_scope.

(* ===================================================================== *)
(** ** Python string primitives                                           *)
(* ===================================================================== *)

Module PyStr.

(** Code point of a character. *)
Definition code (c : ascii) : nat := nat_of_ascii c.

Definition in_range (lo hi : nat) (c : ascii) : bool :=
  Nat.leb lo (code c) && Nat.leb (code c) hi.

(** The regular-expression class [\d] on code points below 256. *)
Definition is_digit (c : ascii) : bool := in_range 48 57 c.

(** [str.isspace] for one character (code points below 256): tab, line
    feed, vertical tab, form feed, carriage return, the separators
    0x1c..0x1f, space, next-line 0x85 and no-break space 0xa0. *)
Definition is_space (c : ascii) : bool :=
  in_range 9 13 c || in_range 28 32 c
  || Nat.eqb (code c) 133 || Nat.eqb (code c) 160.

(** [str.lower] for one character (code points below 256): the letters
    A..Z and the Latin-1 capitals 0xc0..0xde, the multiplication sign 0xd7
    excepted, move up by 32. *)
Definition lower_char (c : ascii) : ascii :=
  if in_range 65 90 c || (in_range 192 222 c && negb (Nat.eqb (code c) 215))
  then ascii_of_nat (code c + 32)
  else c.

Fixpoint lower (s : string) : string :=
  match s with
  | EmptyString => EmptyString
  | String c s' => String (lower_char c) (lower s')
  end.

Definition is_empty (s : string) : bool :=
  match s with EmptyString => true | _ => false end.

(** [s.startswith(p)]. *)
Fixpoint starts_with (p s : string) : bool :=
  match p with
  | EmptyString => true
  | String a p' =>
      match s with
      | EmptyString => false
      | String b s' => Ascii.eqb a b && starts_with p' s'
      end
  end.

(** [s[n:]] for a natural [n]. *)
Fixpoint drop (n : nat) (s : string) : string :=
  match n with
  | O => s
  | S n' => match s with EmptyString => EmptyString | String _ s' => drop n' s' end
  end.

(** [s[:n]] for a natural [n]. *)
Fixpoint take (n : nat) (s : string) : string :=
  match n with
  | O => EmptyString
  | S n' => match s with EmptyString => EmptyString | String c s' => String c (take n' s') end
  end.

(** [s[i:j]] for naturals [i] and [j]; empty when [j <= i]. *)
Definition slice (i j : nat) (s : string) : string := take (j - i) (drop i s).

(** [s.find(sub)], counting from [i]; [None] stands for -1. *)
Fixpoint find_from (sub s : string) (i : nat) : option nat :=
  if starts_with sub s then Some i
  else match s with
       | EmptyString => None
       | String _ s' => find_from sub s' (S i)
       end.

Definition find (sub s : string) : option nat := find_from sub s 0.

(** [sub in s]. *)
Definition contains (sub s : string) : bool :=
  match find sub s with Some _ => true | None => false end.

(** The longest prefix of characters satisfying [p], and what follows. *)
Fixpoint take_while (p : ascii -> bool) (s : string) : string :=
  match s with
  | EmptyString => EmptyString
  | String c s' => if p c then String c (take_while p s') else EmptyString
  end.

Fixpoint drop_while (p : ascii -> bool) (s : string) : string :=
  match s with
  | EmptyString => EmptyString
  | String c s' => if p c then drop_while p s' else s
  end.

Definition lstrip (s : string) : string := drop_while is_space s.

Fixpoint rstrip (s : string) : string :=
  match s with
  | EmptyString => EmptyString
  | String c s' =>
      let r := rstrip s' in
      if is_space c && is_empty r then EmptyString else String c r
  end.

(** [s.strip()]. *)
Definition strip (s : string) : string := rstrip (lstrip s).

Definition newline : ascii := ascii_of_nat 10.
Definition is_newline (c : ascii) : bool := Ascii.eqb c newline.
Definition nl : string := String newline EmptyString.

(** [s.split('\n')]: always at least one piece. *)
Fixpoint split_lines (s : string) : list string :=
  match s with
  | EmptyString => [EmptyString]
  | String c s' =>
      if is_newline c then EmptyString :: split_lines s'
      else match split_lines s' with
           | [] => [String c EmptyString]
           | l :: ls => String c l :: ls
           end
  end.

(** ['\n'.join(ls)]. *)
Fixpoint join_lines (ls : list string) : string :=
  match ls with
  | [] => EmptyString
  | [l] => l
  | l :: ls' => l ++ nl ++ join_lines ls'
  end.

(** [sep.join(ls)] with the empty separator. *)
Definition concat_all (ls : list string) : string := String.concat EmptyString ls.

(** [str(n)] for a non-negative integer. *)
Definition of_nat (n : nat) : string := NilEmpty.string_of_uint (Nat.to_uint n).

End PyStr.

(* ===================================================================== *)
(** ** Exceptions                                                         *)
(* ===================================================================== *)

Inductive exn : Type :=
| ValueError          (* float() on text that is not a number *)
| KeyError            (* a dict read of a key that is not there *)
| FileNotFoundError   (* open() of a path that does not exist *)
| OSError.            (* any other failure of the file system *)

Inductive result (A : Type) : Type :=
| Ok (a : A)
| Raise (e : exn).
Arguments Ok {A} a.
Arguments Raise {A} e.

Definition bind {A B : Type} (m : result A) (k : A -> result B) : result B :=
  match m with
  | Ok a => k a
  | Raise e => Raise e
  end.

Notation "x <- m ;; k" := (bind m (fun x => k))
  (at level 61, m at next level, right associativity).
Notation "' pat <- m ;; k" := (bind m (fun x => match x with pat => k end))
  (at level 61, pat pattern, m at next level, right associativity).

(* ===================================================================== *)
(** ** Block extractor                                                    *)
(* ===================================================================== *)

Module Extract.
Import PyStr.

Definition shared_start_phrase : string := "Shared sub channel:".
Definition shared_end_phrase : string := "End shared sub channel".

(** [extract_shared_sub_block(content)]; [None] is Python's [None]. *)
Definition extract_shared_sub_block (content : string) : option string :=
  match find shared_start_phrase content, find shared_end_phrase content with
  | Some shared_start, Some shared_end =>
      Some (strip (slice shared_start shared_end content))
  | _, _ => None
  end.

Definition dquote : ascii := ascii_of_nat 34.
Definition is_dquote (c : ascii) : bool := Ascii.eqb c dquote.

(** The text [s] between double quotes. *)
Definition quoted (s : string) : string :=
  String dquote (s ++ String dquote EmptyString).

Definition channel_open : string := "Channel: " ++ String dquote EmptyString.
Definition channel_close (name : string) : string := "End Channel: " ++ quoted name.

(** One attempt of [channel_pattern] (with [re.DOTALL]) at the head of [s]:
    the opening phrase, group 1 between double quotes (one or more
    characters other than a double quote), group 2 (anything, lazily), the
    closing phrase and group 1 again between double quotes.  The result is
    the two groups and the length of the match.  Group 1 is the whole run
    of characters up to the next double quote; the lazy group 2 ends at the
    first place where the closing phrase for that name stands. *)
Definition match_channel_at (s : string) : option (string * string * nat) :=
  if starts_with channel_open s then
    let r := drop (String.length channel_open) s in
    let name := take_while (fun c => negb (is_dquote c)) r in
    if is_empty name then None
    else
      match drop (String.length name) r with
      | String c r2 =>
          if is_dquote c then
            match find (channel_close name) r2 with
            | Some k =>
                Some (name, take k r2,
                      String.length channel_open + String.length name + 1 + k
                      + String.length (channel_close name))
            | None => None
            end
          else None
      | EmptyString => None
      end
  else None.

(** [re.findall] for that pattern: the matches from left to right, the
    search resuming where a match ended.  [skip] counts the characters
    still covered by the last match. *)
Fixpoint findall_channels (s : string) (skip : nat) : list (string * string) :=
  match s with
  | EmptyString => []
  | String _ s' =>
      match skip with
      | S k => findall_channels s' k
      | O =>
          match match_channel_at s with
          | Some (name, body, len) => (name, body) :: findall_channels s' (len - 1)
          | None => findall_channels s' 0
          end
      end
  end.

(** A Python dict with string keys, in insertion order: [d[k] = v]. *)
Fixpoint dict_set {V : Type} (k : string) (v : V) (d : list (string * V))
  : list (string * V) :=
  match d with
  | [] => [(k, v)]
  | (k', v') :: d' =>
      if String.eqb k k' then (k, v) :: d' else (k', v') :: dict_set k v d'
  end.

(** [extract_channel_blocks(content)]. *)
Definition extract_channel_blocks (content : string) : list (string * string) :=
  fold_left
    (fun channels m => dict_set (fst m) (strip (snd m)) channels)
    (findall_channels content 0) [].

End Extract.

(* ===================================================================== *)
(** ** Filter parser and record selector                                  *)
(* ===================================================================== *)

Module Parse.
Import PyStr Extract.

(** [re.split(r'\n(?=FL\d+:)', text)]: the text is cut at every line feed
    that is followed by FL, one or more digits and a colon. *)
Definition at_filter_tag (s : string) : bool :=
  starts_with "FL" s
  && negb (is_empty (take_while is_digit (drop 2 s)))
  && starts_with ":" (drop_while is_digit (drop 2 s)).

Fixpoint split_filter_blocks (text : string) : list string :=
  match text with
  | EmptyString => [EmptyString]
  | String c s' =>
      if is_newline c && at_filter_tag s' then EmptyString :: split_filter_blocks s'
      else match split_filter_blocks s' with
           | [] => [String c EmptyString]
           | b :: bs => String c b :: bs
           end
  end.

(** [re.match(r'(FL\d+): (.+)', first_line)]: the two groups. *)
Definition match_filter_header (first_line : string) : option (string * string) :=
  if starts_with "FL" first_line then
    let digits := take_while is_digit (drop 2 first_line) in
    let r := drop_while is_digit (drop 2 first_line) in
    if is_empty digits then None
    else if starts_with ": " r then
      let rest := take_while (fun c => negb (is_newline c)) (drop 2 r) in
      if is_empty rest then None else Some ("FL" ++ digits, rest)
    else None
  else None.

(** [re.search(lit + '(' + cls + '+)', s)] for a literal [lit] and a
    character class [cls]: group 1 of the leftmost match. *)
Fixpoint re_search_value (lit : string) (cls : ascii -> bool) (s : string)
  : option string :=
  let here :=
    if starts_with lit s then
      let v := take_while cls (drop (String.length lit) s) in
      if is_empty v then None else Some v
    else None in
  match here with
  | Some v => Some v
  | None =>
      match s with
      | EmptyString => None
      | String _ s' => re_search_value lit cls s'
      end
  end.

Definition is_dot (c : ascii) : bool := Ascii.eqb c (ascii_of_nat 46).
Definition is_minus (c : ascii) : bool := Ascii.eqb c (ascii_of_nat 45).

(** The classes [[\d.]] and [[-\d.]]. *)
Definition unsigned_class (c : ascii) : bool := is_digit c || is_dot c.
Definition signed_class (c : ascii) : bool := is_minus c || is_digit c || is_dot c.

Definition parameter (label : string) : string :=
  "Parameter " ++ quoted label ++ " = ".

Definition search_center_freq : string -> option string :=
  re_search_value (parameter "Center freq (Hz)") unsigned_class.
Definition search_boost : string -> option string :=
  re_search_value (parameter "Boost (dB)") signed_class.
Definition search_q_rbj : string -> option string :=
  re_search_value (parameter "Q (RBJ)") unsigned_class.
Definition search_q_classic : string -> option string :=
  re_search_value (quoted "Classic" ++ " Q = ") unsigned_class.
Definition search_allpass_freq : string -> option string :=
  re_search_value (parameter "Freq of 180 deg phase (Hz)") unsigned_class.
Definition search_allpass_q : string -> option string :=
  re_search_value (parameter "All-pass Q") unsigned_class.

Section Records.

(** Python's [float]: the type, [float(text)] ([None] when it raises
    [ValueError]) and the text an f-string renders a float as. *)
Context {float : Type}.
Variable float_of_str : string -> option float.

(** A filter record is the dict the parser builds; a field of type
    [option] is a key that only one of the two kinds of record carries. *)
Record filter_record : Type := mk_filter {
  name : string;
  type : string;
  freq : float;
  gain : option float;
  q : float;
  q_rbj : option float;
  q_classic : option float
}.

Definition to_float (text : string) : result float :=
  match float_of_str text with
  | Some x => Ok x
  | None => Raise ValueError
  end.

(** [parse_parametric_eq_parameters]; [Ok None] is the return of [None]. *)
Definition parse_parametric_eq_parameters
    (filter_name filter_type parameters q_type : string)
  : result (option filter_record) :=
  let freq_match := search_center_freq parameters in
  let gain_match := search_boost parameters in
  let q_rbj_match := search_q_rbj parameters in
  let q_classic_match := search_q_classic parameters in
  match freq_match, gain_match, q_rbj_match with
  | Some freq_text, Some gain_text, Some q_rbj_text =>
      freq <- to_float freq_text ;;
      gain <- to_float gain_text ;;
      q_rbj <- to_float q_rbj_text ;;
      q_classic <- match q_classic_match with
                   | Some t => to_float t
                   | None => Ok q_rbj
                   end ;;
      let q_value := if String.eqb q_type "classic" then q_classic else q_rbj in
      Ok (Some (mk_filter filter_name filter_type freq (Some gain) q_value
                          (Some q_rbj) (Some q_classic)))
  | _, _, _ => Ok None
  end.

(** [parse_allpass_parameters]. *)
Definition parse_allpass_parameters
    (filter_name filter_type parameters : string)
  : result (option filter_record) :=
  match search_allpass_freq parameters, search_allpass_q parameters with
  | Some freq_text, Some q_text =>
      freq <- to_float freq_text ;;
      q <- to_float q_text ;;
      Ok (Some (mk_filter filter_name filter_type freq None q None None))
  | _, _ => Ok None
  end.

(** The defaults that [parse_filters_from_text] gives its two optional
    arguments when they are [None]. *)
Definition default_included_types : list string := ["Parametric EQ"].
Definition default_excluded_types : list string := ["Gain Block"; "Delay Block"].

Definition or_default {A : Type} (o : option A) (d : A) : A :=
  match o with Some a => a | None => d end.

(** [phrase.lower() in filter_type.lower()] for some phrase of the list. *)
Definition matches_any (phrases : list string) (filter_type : string) : bool :=
  existsb (fun phrase => contains (lower phrase) (lower filter_type)) phrases.

(** What the loop of [parse_filters_from_text] reads off one chunk: the
    name and the type of the first line, and the lines after it joined
    again.  [None] when the chunk is skipped for its shape. *)
Definition chunk_parts (block : string) : option (string * string * string) :=
  if is_empty (strip block) then None
  else
    match split_lines (strip block) with
    | [] => None
    | first_line :: params =>
        match match_filter_header first_line with
        | Some (filter_name, rest) => Some (filter_name, strip rest, join_lines params)
        | None => None
        end
    end.

(** The body of the loop of [parse_filters_from_text] for one chunk:
    the record it appends, if any. *)
Definition parse_chunk (block q_type : string) (included_types excluded_types : list string)
  : result (option filter_record) :=
  match chunk_parts block with
  | None => Ok None
  | Some (filter_name, filter_type, parameters) =>
      let should_include := matches_any included_types filter_type in
      let should_include :=
        if matches_any excluded_types filter_type then false
        else should_include in
      if negb should_include then Ok None
      else if contains "Parametric EQ" filter_type then
        parse_parametric_eq_parameters filter_name filter_type parameters q_type
      else if contains "All-Pass" filter_type then
        parse_allpass_parameters filter_name filter_type parameters
      else Ok None
  end.

Fixpoint parse_chunks (blocks : list string) (q_type : string)
    (included_types excluded_types : list string)
  : result (list filter_record) :=
  match blocks with
  | [] => Ok []
  | block :: rest =>
      r <- parse_chunk block q_type included_types excluded_types ;;
      filters <- parse_chunks rest q_type included_types excluded_types ;;
      Ok (match r with Some filter_data => filter_data :: filters | None => filters end)
  end.

(** [parse_filters_from_text]. *)
Definition parse_filters_from_text (text q_type : string)
    (included_types excluded_types : option (list string))
  : result (list filter_record) :=
  let included_types := or_default included_types default_included_types in
  let excluded_types := or_default excluded_types default_excluded_types in
  parse_chunks (split_filter_blocks text) q_type included_types excluded_types.

(** The loop of [parse_mso_file] over the channel blocks: a channel is
    kept when it has at least one record. *)
Fixpoint parse_channel_blocks (blocks : list (string * string)) (q_type : string)
    (included_types excluded_types : option (list string))
  : result (list (string * list filter_record)) :=
  match blocks with
  | [] => Ok []
  | (channel_name, channel_content) :: rest =>
      channel_filters <-
        parse_filters_from_text channel_content q_type included_types excluded_types ;;
      channels <- parse_channel_blocks rest q_type included_types excluded_types ;;
      Ok (match channel_filters with
          | [] => channels
          | _ :: _ => (channel_name, channel_filters) :: channels
          end)
  end.

(** [parse_mso_file], from the text that was read. *)
Definition parse_mso_content (content q_type : string)
    (included_types excluded_types : option (list string))
  : result (list (string * list filter_record) * list filter_record) :=
  let channel_blocks := extract_channel_blocks content in
  let shared_block := extract_shared_sub_block content in
  channels <- parse_channel_blocks channel_blocks q_type included_types excluded_types ;;
  shared_sub <-
    match shared_block with
    | Some block =>
        if is_empty block then Ok []
        else parse_filters_from_text block q_type included_types excluded_types
    | None => Ok []
    end ;;
  Ok (channels, shared_sub).

End Records.

End Parse.

Arguments Parse.filter_record float : clear implicits.

(* ===================================================================== *)
(** ** Format emitter                                                     *)
(* ===================================================================== *)

Module Emit.
Import PyStr Parse.

Section Emitter.

Context {float : Type}.
(** The text an f-string renders a float as. *)
Variable float_repr : float -> string.
(** [datetime.now().strftime('%Y%m%d')] during the run. *)
Variable today : string.

(** The order of an all-pass filter, read off its type. *)
Definition allpass_order (filter_type : string) : string :=
  if contains "Second-Order" filter_type then "2"
  else if contains "First-Order" filter_type then "1"
  else if contains "Third-Order" filter_type then "3"
  else if contains "Fourth-Order" filter_type then "4"
  else "2".

Definition bell_line (filter_count : nat) (filter_data : filter_record float)
    (gain_value : float) : string :=
  "Filter " ++ of_nat filter_count ++ ": ON Bell Fc "
  ++ float_repr (freq filter_data) ++ " Hz Gain " ++ float_repr gain_value
  ++ " dB Q " ++ float_repr (q filter_data) ++ nl.

Definition allpass_line (filter_count : nat) (filter_data : filter_record float)
  : string :=
  "Filter " ++ of_nat filter_count ++ ": ON All Pass Order "
  ++ allpass_order (type filter_data) ++ " Fc "
  ++ float_repr (freq filter_data) ++ " Hz Gain 0 dB Q "
  ++ float_repr (q filter_data) ++ nl.

(** The loop of [write_storm_audio_format]: the strings written, in order,
    and the exception that stopped the loop, if any.  Reading the gain of
    a record that has none raises [KeyError]. *)
Fixpoint write_filters (filters : list (filter_record float)) (filter_count : nat)
  : list string * option exn :=
  match filters with
  | [] => ([], None)
  | filter_data :: rest =>
      if contains "Parametric EQ" (type filter_data) then
        match gain filter_data with
        | Some gain_value =>
            let (written, e) := write_filters rest (S filter_count) in
            (bell_line filter_count filter_data gain_value :: written, e)
        | None => ([], Some KeyError)
        end
      else if contains "All-Pass" (type filter_data) then
        let (written, e) := write_filters rest (S filter_count) in
        (allpass_line filter_count filter_data :: written, e)
      else write_filters rest filter_count
  end.

(** What is written before the loop. *)
Definition header (channel_name equaliser_name : string) : string :=
  "Filter Settings file" ++ nl ++ nl
  ++ "Dated:" ++ today ++ nl ++ nl
  ++ "Equaliser: " ++ equaliser_name ++ nl
  ++ (if is_empty channel_name then EmptyString
      else "Channel: " ++ channel_name ++ nl)
  ++ nl.

(** One call of [write_storm_audio_format] that opened its file: the
    arguments and the text the file holds afterwards. *)
Record write_event : Type := mk_write {
  w_file : string;
  w_channel : string;
  w_filters : list (filter_record float);
  w_text : string
}.

(** [write_storm_audio_format]; [open_for_write] tells whether opening
    the output file raises. *)
Definition write_storm_audio_format (open_for_write : string -> option exn)
    (filters : list (filter_record float))
    (output_file channel_name equaliser_name : string)
  : list write_event * option exn :=
  match open_for_write output_file with
  | Some e => ([], Some e)
  | None =>
      let (written, e) := write_filters filters 1 in
      ([mk_write output_file channel_name filters
                 (header channel_name equaliser_name ++ concat_all written)], e)
  end.

End Emitter.

End Emit.

Arguments Emit.write_event float : clear implicits.

(* ===================================================================== *)
(** ** Conversion orchestrator                                            *)
(* ===================================================================== *)

Module Convert.
Import PyStr Extract Parse Emit.

(** What the run asks of its surroundings. *)
Record env : Type := mk_env {
  isfile : string -> bool;               (* os.path.isfile *)
  read_input : string -> result string;  (* open(path, 'r') and read() *)
  makedirs : string -> option exn;       (* os.makedirs(path, exist_ok=True) *)
  open_for_write : string -> option exn; (* open(path, 'w') *)
  today : string                         (* the date, as YYYYMMDD *)
}.

Fixpoint ends_with_slash (s : string) : bool :=
  match s with
  | EmptyString => false
  | String c EmptyString => Ascii.eqb c (ascii_of_nat 47)
  | String _ s' => ends_with_slash s'
  end.

(** [os.path.join(a, b)] of [posixpath]. *)
Definition path_join (a b : string) : string :=
  if starts_with "/" b then b
  else if is_empty a || ends_with_slash a then a ++ b
  else a ++ "/" ++ b.

Definition channel_file (channel_name : string) : string :=
  channel_name ++ "_filters.txt".
Definition shared_file : string := "shared_sub_filters.txt".
Definition shared_label : string := "Shared Sub".

Definition nonempty {A : Type} (l : list A) : bool :=
  match l with [] => false | _ :: _ => true end.

Section Run.

Context {float : Type}.
Variable float_of_str : string -> option float.
Variable float_repr : float -> string.
Variable E : env.

Definition write_file :=
  write_storm_audio_format float_repr (today E) (open_for_write E).

(** The loop of [convert_mso_to_storm_audio] over the channels: the files
    written and the exception that stopped the loop, if any. *)
Fixpoint write_channels (channels : list (string * list (filter_record float)))
    (shared_sub : list (filter_record float))
    (output_folder equaliser_name : string) (combine_shared : bool)
  : list (write_event float) * option exn :=
  match channels with
  | [] => ([], None)
  | (channel_name, filters) :: rest =>
      if nonempty filters then
        let to_write :=
          if combine_shared && nonempty shared_sub then (shared_sub ++ filters)%list
          else filters in
        let output_file := path_join output_folder (channel_file channel_name) in
        match write_file to_write output_file channel_name equaliser_name with
        | (events, Some e) => (events, Some e)
        | (events, None) =>
            let (more, e) :=
              write_channels rest shared_sub output_folder equaliser_name combine_shared in
            ((events ++ more)%list, e)
        end
      else write_channels rest shared_sub output_folder equaliser_name combine_shared
  end.

(** [parse_mso_file]. *)
Definition parse_mso_file (input_file q_type : string)
    (included_types excluded_types : option (list string)) :=
  content <- read_input E input_file ;;
  parse_mso_content float_of_str content q_type included_types excluded_types.

(** [convert_mso_to_storm_audio]: the files written, in order, and the
    exception caught by the handler at the end, if any. *)
Definition convert_mso_to_storm_audio (input_file output_folder q_type equaliser_name : string)
    (included_types excluded_types : option (list string)) (combine_shared : bool)
  : list (write_event float) * option exn :=
  match makedirs E output_folder with
  | Some e => ([], Some e)
  | None =>
      match parse_mso_file input_file q_type included_types excluded_types with
      | Raise e => ([], Some e)
      | Ok (channels, shared_sub) =>
          match write_channels channels shared_sub output_folder equaliser_name
                               combine_shared with
          | (events, Some e) => (events, Some e)
          | (events, None) =>
              if nonempty shared_sub && negb combine_shared then
                let (shared_events, e) :=
                  write_file shared_sub (path_join output_folder shared_file)
                             shared_label equaliser_name in
                ((events ++ shared_events)%list, e)
              else (events, None)
          end
      end
  end.

(** The command line after [parse_args]: an option that was not given is
    [None]. *)
Record cli_args : Type := mk_args {
  arg_input_file : string;
  arg_output_folder : string;
  arg_equaliser : option string;
  arg_q_type : option string;
  arg_include_types : option (list string);
  arg_exclude_types : option (list string);
  arg_combine_shared : bool
}.

(** The defaults declared with [add_argument]. *)
Definition cli_default_equaliser : string := "StormAudio".
Definition cli_default_q_type : string := "rbj".
Definition cli_default_include_types : list string := ["Parametric EQ"; "All-Pass"].
Definition cli_default_exclude_types : list string := ["Gain Block"; "Delay Block"].

(** [main], once [parse_args] has accepted the command line. *)
Definition main (args : cli_args) : list (write_event float) * option exn :=
  if negb (isfile E (arg_input_file args)) then ([], None)
  else
    convert_mso_to_storm_audio
      (arg_input_file args) (arg_output_folder args)
      (or_default (arg_q_type args) cli_default_q_type)
      (or_default (arg_equaliser args) cli_default_equaliser)
      (Some (or_default (arg_include_types args) cli_default_include_types))
      (Some (or_default (arg_exclude_types args) cli_default_exclude_types))
      (arg_combine_shared args).

End Run.

End Convert.

(* ===================================================================== *)
(** ** The wording of the specification, for comparison                   *)
(* ===================================================================== *)

Module SpecWords.
Import PyStr Extract Parse.

(** The shared block as the specification words it: the trimmed text
    strictly between the first start phrase and the first end phrase,
    the two phrases left out. *)
Definition spec_shared_block (content : string) : option string :=
  match find shared_start_phrase content, find shared_end_phrase content with
  | Some i, Some j =>
      Some (strip (slice (i + String.length shared_start_phrase) j content))
  | _, _ => None
  end.

(** The order of an all-pass filter as the specification words it: read
    off the ordinal word that stands in the type, 2 when there is none. *)
Definition spec_allpass_order (filter_type : string) : string :=
  if contains "First" filter_type then "1"
  else if contains "Second" filter_type then "2"
  else if contains "Third" filter_type then "3"
  else if contains "Fourth" filter_type then "4"
  else "2".

(** The choice of the extraction routine as the specification words it:
    by containment whatever the case of the letters. *)
Inductive routine : Type := ParametricEQ | AllPass | NoRoutine.

Definition spec_routine (filter_type : string) : routine :=
  if contains (lower "Parametric EQ") (lower filter_type) then ParametricEQ
  else if contains (lower "All-Pass") (lower filter_type) then AllPass
  else NoRoutine.

End SpecWords.

(* ===================================================================== *)
(** ** A stand-in for floats, to run the model on examples                *)
(* ===================================================================== *)

Module Sample.
Import PyStr Extract Parse Emit Convert.

Definition all_digits (s : string) : bool := is_empty (drop_while is_digit s).

(** A number is kept as the text of its literal.  Of the texts that the
    parameter patterns can hand over (digits, dots and minus signs),
    [sample_float] accepts those that [float] accepts: an optional minus
    sign, then digits with at most one dot and at least one digit. *)
Definition sample_float (s : string) : option string :=
  let body := match s with
              | String c r => if is_minus c then r else s
              | EmptyString => s
              end in
  let int_part := take_while is_digit body in
  match drop_while is_digit body with
  | EmptyString => if is_empty int_part then None else Some s
  | String c frac =>
      if is_dot c && all_digits frac
         && negb (is_empty int_part && is_empty frac)
      then Some s else None
  end.

Definition sample_repr (x : string) : string := x.

(** Surroundings in which every file operation succeeds and the input
    file holds [content]. *)
Definition quiet_env (content : string) : env :=
  mk_env (fun _ => true) (fun _ => Ok content) (fun _ => None) (fun _ => None)
         "20240101".

Definition lines (ls : list string) : string := join_lines ls.

Definition peq_chunk (tag type_text : string) : list string :=
  [ tag ++ ": " ++ type_text;
    parameter "Center freq (Hz)" ++ "100";
    parameter "Boost (dB)" ++ "-3";
    parameter "Q (RBJ)" ++ "0.7" ].

Definition allpass_chunk (tag type_text : string) : list string :=
  [ tag ++ ": " ++ type_text;
    parameter "Freq of 180 deg phase (Hz)" ++ "60";
    parameter "All-pass Q" ++ "1.0" ].

Definition channel_block (channel_name : string) (body : list string) : list string :=
  ([("Channel: " ++ quoted channel_name)%string] ++ body
   ++ [("End Channel: " ++ quoted channel_name)%string])%list.

Definition shared_block (body : list string) : list string :=
  (["Shared sub channel:"] ++ body ++ ["End shared sub channel"])%list.

(** One channel with a bell filter and an all-pass filter, and a shared
    block with one bell filter. *)
Definition sample_document : string :=
  lines (channel_block "Left"
           (peq_chunk "FL1" "Parametric EQ (RBJ)"
            ++ allpass_chunk "FL2" "All-Pass Third-Order")
         ++ shared_block (peq_chunk "FL9" "Parametric EQ"))%list.

(** One channel whose only filter is an all-pass filter. *)
Definition allpass_document : string :=
  lines (channel_block "Left" (allpass_chunk "FL1" "All-Pass Third-Order")).

(** A document whose end phrase comes before its start phrase. *)
Definition reversed_document : string :=
  lines (["End shared sub channel"]
         ++ channel_block "Left" (peq_chunk "FL1" "Parametric EQ")
         ++ ["Shared sub channel:"] ++ peq_chunk "FL9" "Parametric EQ")%list.

(** The channel of [reversed_document] and nothing else. *)
Definition channel_only_document : string :=
  lines (channel_block "Left" (peq_chunk "FL1" "Parametric EQ")).

End Sample.

(* ===================================================================== *)
(** ** Vocabulary of the statements                                       *)
(* ===================================================================== *)

Module Vocabulary.
Import PyStr Parse Emit Convert.

Section Terms.

Context {float : Type}.

(** The record has a rendering rule in the emitter. *)
Definition has_rule (r : filter_record float) : bool :=
  contains "Parametric EQ" (type r) || contains "All-Pass" (type r).

(** A record that the emitter renders as a bell filter carries a gain. *)
Definition gain_present (r : filter_record float) : Prop :=
  contains "Parametric EQ" (type r) = true -> gain r <> None.

(** A channel as [parse_mso_file] keeps it: it has records, and they
    carry their gains. *)
Definition channel_ok (c : string * list (filter_record float)) : Prop :=
  snd c <> [] /\ Forall gain_present (snd c).

(** The text of a file whose records are all written. *)
Definition document (float_repr : float -> string) (today : string)
    (filters : list (filter_record float))
    (channel_name equaliser_name : string) : string :=
  header today channel_name equaliser_name
  ++ concat_all (fst (write_filters float_repr filters 1)).

(** What a channel's file holds: the shared records first when they are
    combined in. *)
Definition channel_records (shared_sub filters : list (filter_record float))
    (combine_shared : bool) : list (filter_record float) :=
  if combine_shared && nonempty shared_sub then (shared_sub ++ filters)%list
  else filters.

(** The file of one channel, as a run without failure writes it. *)
Definition channel_event (float_repr : float -> string) (today : string)
    (shared_sub : list (filter_record float))
    (output_folder equaliser_name : string) (combine_shared : bool)
    (c : string * list (filter_record float)) : write_event float :=
  mk_write (path_join output_folder (channel_file (fst c))) (fst c)
           (channel_records shared_sub (snd c) combine_shared)
           (document float_repr today
              (channel_records shared_sub (snd c) combine_shared)
              (fst c) equaliser_name).

(** The file of the shared records alone, as a run without failure
    writes it. *)
Definition shared_event (float_repr : float -> string) (today : string)
    (shared_sub : list (filter_record float))
    (output_folder equaliser_name : string) : write_event float :=
  mk_write (path_join output_folder shared_file) shared_label shared_sub
           (document float_repr today shared_sub shared_label equaliser_name).

(** Output lines numbered from [n] on, one per body. *)
Fixpoint numbered (n : nat) (bodies : list string) : list string :=
  match bodies with
  | [] => []
  | body :: rest => ("Filter " ++ of_nat n ++ ": ON " ++ body) :: numbered (S n) rest
  end.

(** The file of the shared records alone: the fixed name in the output
    folder, under the fixed channel label. *)
Definition is_standalone_shared (output_folder : string) (ev : write_event float) : bool :=
  String.eqb (w_file ev) (path_join output_folder shared_file)
  && String.eqb (w_channel ev) shared_label.

End Terms.

(** The surroundings [E] with [content] as the text of the input file. *)
Definition with_input (E : env) (content : string) : env :=
  mk_env (isfile E) (fun _ => Ok content) (makedirs E) (open_for_write E) (today E).

End Vocabulary.

(* ===================================================================== *)
(** ** Further vocabulary: dicts, matches and record shapes               *)
(* ===================================================================== *)

Module Observers.
Import PyStr Extract Parse Emit Convert.

(** [d.get(k)] on a dict in insertion order. *)
Fixpoint dict_get {V : Type} (k : string) (d : list (string * V)) : option V :=
  match d with
  | [] => None
  | (k', v) :: d' => if String.eqb k k' then Some v else dict_get k d'
  end.

(** The second group of the last match whose first group is [name]. *)
Fixpoint last_body (name : string) (ms : list (string * string)) : option string :=
  match ms with
  | [] => None
  | (n, body) :: rest =>
      match last_body name rest with
      | Some b => Some b
      | None => if String.eqb name n then Some body else None
      end
  end.

(** The keys of a list in the order in which they are first seen. *)
Definition first_seen (keys : list string) : list string :=
  fold_left
    (fun seen k => if existsb (String.eqb k) seen then seen else (seen ++ [k])%list)
    keys [].

(** Every character of the text satisfies [p]. *)
Fixpoint all_chars (p : ascii -> bool) (s : string) : bool :=
  match s with
  | EmptyString => true
  | String c s' => p c && all_chars p s'
  end.

Section Shapes.

Context {float : Type}.

(** The name of a record: FL followed by one or more digits. *)
Definition is_filter_name (s : string) : Prop :=
  exists digits,
    s = "FL" ++ digits /\ is_empty digits = false /\ all_chars is_digit digits = true.

(** The keys of a record of the Parametric EQ routine: the gain and the
    two Q values are there, and the selected Q is one of the two. *)
Definition bell_shape (r : filter_record float) : Prop :=
  exists g qr qc,
    gain r = Some g /\ q_rbj r = Some qr /\ q_classic r = Some qc
    /\ (q r = qr \/ q r = qc).

(** The keys of a record of the All-Pass routine. *)
Definition allpass_shape (r : filter_record float) : Prop :=
  gain r = None /\ q_rbj r = None /\ q_classic r = None.

(** What holds of every record that the parser returns under the include
    and exclude phrases in force. *)
Definition record_invariant (included excluded : list string)
    (r : filter_record float) : Prop :=
  is_filter_name (name r)
  /\ matches_any included (type r) = true
  /\ matches_any excluded (type r) = false
  /\ (if contains "Parametric EQ" (type r) then bell_shape r
      else contains "All-Pass" (type r) = true /\ allpass_shape r).

(** Two records that agree on every key but [q]. *)
Definition same_but_q (a b : filter_record float) : Prop :=
  name a = name b /\ type a = type b /\ freq a = freq b /\ gain a = gain b
  /\ q_rbj a = q_rbj b /\ q_classic a = q_classic b.

(** A record read with the classic Q beside the same record read with
    the RBJ Q: they agree on every key but [q]; a Parametric EQ record
    has its classic Q, or its RBJ Q, as [q]; any other record has the same
    [q] in both. *)
Definition differs_in_q_only (c r : filter_record float) : Prop :=
  same_but_q c r
  /\ (if contains "Parametric EQ" (type r)
      then q_classic c = Some (q c) /\ q_rbj r = Some (q r)
      else q c = q r).

End Shapes.

(** Two results that end the same way: both return, with related values,
    or both raise the same exception. *)
Definition same_outcome {A : Type} (R : A -> A -> Prop) (x y : result A) : Prop :=
  match x, y with
  | Ok a, Ok b => R a b
  | Raise e, Raise e' => e = e'
  | _, _ => False
  end.

(** Related when both are absent or both are there and related. *)
Definition option_rel {A : Type} (R : A -> A -> Prop) (x y : option A) : Prop :=
  match x, y with
  | Some a, Some b => R a b
  | None, None => True
  | _, _ => False
  end.

End Observers.

(* ===================================================================== *)
(** * Properties                                                          *)
(* ===================================================================== *)

(** ** Facts about the string primitives *)

Module StrFacts.
Import PyStr.

Lemma append_nil_r (s : string) : s ++ EmptyString = s.
Proof. induction s as [|c s IH]; simpl; [reflexivity | now rewrite IH]. Qed.

Lemma append_cancel_l (p a b : string) : p ++ a = p ++ b -> a = b.
Proof.
  induction p as [|c p IH]; simpl; intros H.
  - exact H.
  - injection H as H. now apply IH.
Qed.

Lemma starts_with_split (p s : string) :
  starts_with p s = true -> s = p ++ drop (String.length p) s.
Proof.
  revert s; induction p as [|a p IH]; intros s H; simpl in *.
  - reflexivity.
  - destruct s as [|b s]; [discriminate|].
    apply andb_true_iff in H as [Hab Hp].
    apply Ascii.eqb_eq in Hab. subst b.
    f_equal. now apply IH.
Qed.

Lemma starts_with_append (p r : string) : starts_with p (p ++ r) = true.
Proof.
  induction p as [|a p IH]; simpl; [reflexivity|].
  now rewrite Ascii.eqb_refl, IH.
Qed.

Lemma drop_nil (n : nat) : drop n EmptyString = EmptyString.
Proof. destruct n; reflexivity. Qed.

Lemma drop_add (a b : nat) (s : string) : drop (a + b) s = drop b (drop a s).
Proof.
  revert s; induction a as [|a IH]; intros s; simpl.
  - reflexivity.
  - destruct s as [|c s]; [now rewrite drop_nil | apply IH].
Qed.

Lemma take_append_length (p r : string) (n : nat) :
  take (String.length p + n) (p ++ r) = p ++ take n r.
Proof.
  induction p as [|c p IH]; simpl; [reflexivity | now rewrite IH].
Qed.

(** [find_from] returns the first position at which the phrase stands. *)
Lemma find_from_some (sub s : string) (k i : nat) :
  find_from sub s k = Some i ->
  k <= i
  /\ starts_with sub (drop (i - k) s) = true
  /\ forall m, m < i - k -> starts_with sub (drop m s) = false.
Proof.
  revert k; induction s as [|c s IH]; intros k H; simpl in H.
  - destruct (starts_with sub EmptyString) eqn:E; [|discriminate].
    injection H as <-. rewrite Nat.sub_diag. repeat split; auto.
    intros m Hm; lia.
  - destruct (starts_with sub (String c s)) eqn:E.
    + injection H as <-. rewrite Nat.sub_diag. repeat split; auto.
      intros m Hm; lia.
    + apply IH in H as (Hk & Hat & Hbefore).
      replace (i - k) with (S (i - S k)) by lia.
      repeat split; [lia | exact Hat |].
      intros [|m] Hm; [exact E|]. simpl. apply Hbefore. lia.
Qed.

Lemma find_from_none (sub s : string) (k : nat) :
  find_from sub s k = None -> forall m, starts_with sub (drop m s) = false.
Proof.
  revert k; induction s as [|c s IH]; intros k H m; simpl in H.
  - destruct (starts_with sub EmptyString) eqn:E; [discriminate|].
    now rewrite drop_nil.
  - destruct (starts_with sub (String c s)) eqn:E; [discriminate|].
    destruct m as [|m]; [exact E|]. simpl. eapply IH; eauto.
Qed.

Lemma find_some (sub s : string) (i : nat) :
  find sub s = Some i ->
  starts_with sub (drop i s) = true
  /\ forall m, m < i -> starts_with sub (drop m s) = false.
Proof.
  unfold find; intros H. apply find_from_some in H as (_ & Hat & Hbefore).
  rewrite Nat.sub_0_r in *. now split.
Qed.

(** A phrase that stands at position [i] is found, at [i] or earlier. *)
Lemma find_from_at (sub s : string) (k i : nat) :
  starts_with sub (drop i s) = true ->
  exists j, find_from sub s k = Some j /\ j <= k + i.
Proof.
  revert k i; induction s as [|c s IH]; intros k i H; simpl.
  - rewrite drop_nil in H. rewrite H. exists k; split; [reflexivity | lia].
  - destruct (starts_with sub (String c s)) eqn:E.
    + exists k; split; [reflexivity | lia].
    + destruct i as [|i]; [simpl in H; congruence|].
      simpl in H. destruct (IH (S k) i H) as (j & Hj & Hle).
      exists j; split; [exact Hj | lia].
Qed.

Lemma contains_append (sub a b : string) : contains sub (a ++ sub ++ b) = true.
Proof.
  unfold contains, find.
  destruct (find_from_at sub (a ++ sub ++ b) 0 (String.length a)) as (j & Hj & _).
  - replace (drop (String.length a) (a ++ sub ++ b)) with (sub ++ b).
    + apply starts_with_append.
    + clear. induction a as [|c a IH]; simpl; [reflexivity | exact IH].
  - now rewrite Hj.
Qed.

Lemma slice_empty (i j : nat) (s : string) : j <= i -> slice i j s = EmptyString.
Proof.
  intros H. unfold slice. replace (j - i) with 0 by lia. reflexivity.
Qed.

End StrFacts.

(** ** The block extractor *)

Module ExtractFacts.
Import PyStr Extract SpecWords StrFacts.

(** The end phrase opens with a capital E, a letter the start phrase does
    not have: the end phrase cannot begin inside the start phrase. *)
Lemma end_phrase_not_inside_start (t : string) (k : nat) :
  starts_with shared_start_phrase t = true ->
  k < String.length shared_start_phrase ->
  starts_with shared_end_phrase (drop k t) = false.
Proof.
  intros Hs Hk. apply starts_with_split in Hs. rewrite Hs.
  generalize (drop (String.length shared_start_phrase) t) as r. intros r.
  unfold shared_start_phrase in *. simpl in Hk.
  do 19 (destruct k as [|k]; [reflexivity|]).
  lia.
Qed.

(** Trimming a text that opens with the start phrase keeps the phrase and
    trims what follows on the right. *)
Lemma strip_after_start_phrase (x : string) :
  strip (shared_start_phrase ++ x) = shared_start_phrase ++ rstrip x.
Proof. reflexivity. Qed.

Lemma strip_empty : strip EmptyString = EmptyString.
Proof. reflexivity. Qed.

(** The two first occurrences never coincide, and when the start phrase
    comes first the end phrase stands after the whole of it. *)
Lemma shared_marks_apart (content : string) (i j : nat) :
  find shared_start_phrase content = Some i ->
  find shared_end_phrase content = Some j ->
  j < i \/ i + String.length shared_start_phrase <= j.
Proof.
  intros Hi Hj.
  apply find_some in Hi as [Hi _]. apply find_some in Hj as [Hj _].
  destruct (Nat.lt_ge_cases j i) as [Hlt|Hge]; [now left | right].
  destruct (Nat.lt_ge_cases j (i + String.length shared_start_phrase)) as [Hin|Hout];
    [exfalso | exact Hout].
  replace j with (i + (j - i)) in Hj by lia.
  rewrite drop_add in Hj.
  rewrite (end_phrase_not_inside_start (drop i content) (j - i) Hi) in Hj;
    [discriminate | lia].
Qed.

Lemma slice_from_start_phrase (content : string) (i j : nat) :
  find shared_start_phrase content = Some i ->
  i + String.length shared_start_phrase <= j ->
  slice i j content
  = shared_start_phrase ++ slice (i + String.length shared_start_phrase) j content.
Proof.
  intros Hi Hle. apply find_some in Hi as [Hi _].
  unfold slice. rewrite drop_add.
  apply starts_with_split in Hi.
  set (r := drop (String.length shared_start_phrase) (drop i content)) in *.
  rewrite Hi at 1.
  replace (j - i) with (String.length shared_start_phrase
                        + (j - (i + String.length shared_start_phrase))) by lia.
  apply take_append_length.
Qed.

End ExtractFacts.

Import PyStr Extract Parse Emit Convert SpecWords Sample Vocabulary.
Import StrFacts ExtractFacts.

(** ** Shared block: what the extractor returns *)

(** C7, as stated, fails: for a document made of the start phrase, one
    line and the end phrase, the extractor returns the start phrase and the
    line, where the trimmed text strictly between the two phrases is the
    line alone. *)
Lemma shared_block_keeps_start_phrase :
  let content := lines (shared_block ["FL1: Gain Block"]) in
  extract_shared_sub_block content
    = Some ("Shared sub channel:" ++ nl ++ "FL1: Gain Block")
  /\ spec_shared_block content = Some "FL1: Gain Block"
  /\ extract_shared_sub_block content <> spec_shared_block content.
Proof.
  cbv zeta. split; [reflexivity | split; [reflexivity | discriminate]].
Qed.

(** C7, amended: when both phrases occur, with first occurrences at [i]
    and [j], the extractor returns either the start phrase followed by the
    right-trimmed text that lies between the end of the start phrase and
    the end phrase (start phrase first), or the empty text (end phrase
    first); when either phrase is missing it returns no block. *)
Theorem extract_shared_sub_block_span (content : string) :
  (forall i j,
      find shared_start_phrase content = Some i ->
      find shared_end_phrase content = Some j ->
      (i + String.length shared_start_phrase <= j
       /\ extract_shared_sub_block content
          = Some (shared_start_phrase
                  ++ rstrip (slice (i + String.length shared_start_phrase) j content)))
      \/ (j < i /\ extract_shared_sub_block content = Some EmptyString))
  /\ (find shared_start_phrase content = None
      \/ find shared_end_phrase content = None ->
      extract_shared_sub_block content = None).
Proof.
  split.
  - intros i j Hi Hj.
    destruct (shared_marks_apart content i j Hi Hj) as [Hlt|Hge].
    + right. split; [exact Hlt|].
      unfold extract_shared_sub_block. rewrite Hi, Hj.
      rewrite slice_empty by lia. reflexivity.
    + left. split; [exact Hge|].
      unfold extract_shared_sub_block. rewrite Hi, Hj.
      rewrite (slice_from_start_phrase content i j Hi Hge).
      now rewrite strip_after_start_phrase.
  - intros [H|H]; unfold extract_shared_sub_block; rewrite H.
    + reflexivity.
    + now destruct (find shared_start_phrase content).
Qed.

Lemma extract_shared_sub_block_span_witness :
  let content := lines (shared_block ["FL1: Gain Block"; "  "]) in
  find shared_start_phrase content = Some 0
  /\ find shared_end_phrase content = Some 39
  /\ extract_shared_sub_block content
     = Some ("Shared sub channel:" ++ nl ++ "FL1: Gain Block")
  /\ extract_shared_sub_block "End shared sub channel" = None.
Proof.
  cbv zeta.
  pose proof (extract_shared_sub_block_span
                (lines (shared_block ["FL1: Gain Block"; "  "]))) as [Hboth _].
  pose proof (extract_shared_sub_block_span "End shared sub channel") as [_ Hmiss].
  split; [reflexivity | split; [reflexivity | split]].
  - destruct (Hboth 0 39 eq_refl eq_refl) as [[_ H]|[Habs _]].
    + rewrite H. reflexivity.
    + inversion Habs.
  - apply Hmiss. left. reflexivity.
Defined.

(** ** The parameter patterns *)

Lemma drop_append_length (p r : string) : drop (String.length p) (p ++ r) = r.
Proof. induction p as [|c p IH]; simpl; [reflexivity | exact IH]. Qed.

Lemma take_drop_while (p : ascii -> bool) (s : string) :
  take_while p s ++ drop_while p s = s.
Proof.
  induction s as [|c s IH]; simpl; [reflexivity|].
  destruct (p c); simpl; [now rewrite IH | reflexivity].
Qed.

Lemma re_search_value_unfold (lit : string) (cls : ascii -> bool) (s : string) :
  re_search_value lit cls s
  = match (if starts_with lit s then
             let v := take_while cls (drop (String.length lit) s) in
             if is_empty v then None else Some v
           else None) with
    | Some v => Some v
    | None =>
        match s with
        | EmptyString => None
        | String _ s' => re_search_value lit cls s'
        end
    end.
Proof. destruct s; reflexivity. Qed.

(** The value found stands in the text right after the literal, is not
    empty, and is the whole run of characters of the class there. *)
Lemma re_search_value_some (lit : string) (cls : ascii -> bool) (s v : string) :
  re_search_value lit cls s = Some v ->
  exists before after,
    s = before ++ lit ++ v ++ after
    /\ is_empty v = false
    /\ take_while cls (v ++ after) = v.
Proof.
  induction s as [|c s IH]; rewrite re_search_value_unfold.
  - destruct (starts_with lit EmptyString) eqn:Hs; [|discriminate].
    cbv zeta.
    destruct (is_empty (take_while cls (drop (String.length lit) EmptyString))) eqn:Hv;
      [discriminate|].
    intros H. injection H as <-. rewrite drop_nil in Hv. discriminate.
  - destruct (starts_with lit (String c s)) eqn:Hs.
    + cbv zeta.
      destruct (is_empty (take_while cls (drop (String.length lit) (String c s))))
        eqn:Hv.
      * intros H. destruct (IH H) as (b & a & -> & Hne & Hrun).
        exists (String c b), a. now repeat split.
      * intros H. injection H as <-.
        exists EmptyString, (drop_while cls (drop (String.length lit) (String c s))).
        rewrite take_drop_while. simpl append.
        split; [now apply starts_with_split | now split].
    + intros H. destruct (IH H) as (b & a & -> & Hne & Hrun).
      exists (String c b), a. now repeat split.
Qed.

(** When nothing is found, the literal is nowhere followed by a character
    of the class. *)
Lemma re_search_value_none (lit : string) (cls : ascii -> bool) (s : string) :
  re_search_value lit cls s = None ->
  forall before c after,
    cls c = true -> s <> before ++ lit ++ String c after.
Proof.
  intros Hnone before. revert s Hnone.
  induction before as [|a before IH]; intros s Hnone c after Hc Hs; subst s;
    rewrite re_search_value_unfold in Hnone.
  - simpl append in Hnone. rewrite starts_with_append in Hnone. cbv zeta in Hnone.
    rewrite drop_append_length in Hnone. simpl in Hnone. rewrite Hc in Hnone.
    simpl in Hnone. discriminate.
  - simpl append in Hnone.
    destruct (if starts_with lit (String a (before ++ lit ++ String c after))
              then _ else _); [discriminate|].
    exact (IH _ Hnone c after Hc eq_refl).
Qed.

(** ** Parametric EQ records *)

Section ParametricEQ.

Context {float : Type}.
Variable float_of_str : string -> option float.

Lemma to_float_ok (text : string) (x : float) :
  to_float float_of_str text = Ok x -> float_of_str text = Some x.
Proof.
  unfold to_float. destruct (float_of_str text); intros H; now inversion H.
Qed.

(** What a record of the parametric-EQ routine is made of. *)
Lemma parse_peq_inv (filter_name filter_type parameters q_type : string)
    (r : filter_record float) :
  parse_parametric_eq_parameters float_of_str filter_name filter_type parameters q_type = Ok (Some r) ->
  exists freq_text gain_text q_text f g qr qc,
    search_center_freq parameters = Some freq_text
    /\ search_boost parameters = Some gain_text
    /\ search_q_rbj parameters = Some q_text
    /\ float_of_str freq_text = Some f
    /\ float_of_str gain_text = Some g
    /\ float_of_str q_text = Some qr
    /\ match search_q_classic parameters with
       | Some classic_text => float_of_str classic_text = Some qc
       | None => qc = qr
       end
    /\ r = mk_filter filter_name filter_type f (Some g)
                     (if String.eqb q_type "classic" then qc else qr)
                     (Some qr) (Some qc).
Proof.
  unfold parse_parametric_eq_parameters.
  destruct (search_center_freq parameters) as [ft|]; [|discriminate].
  destruct (search_boost parameters) as [gt|]; [|discriminate].
  destruct (search_q_rbj parameters) as [qt|]; [|discriminate].
  destruct (to_float float_of_str ft) as [f|] eqn:Ef; [|discriminate].
  destruct (to_float float_of_str gt) as [g|] eqn:Eg; [|discriminate].
  destruct (to_float float_of_str qt) as [qr|] eqn:Eq; [|discriminate].
  simpl.
  destruct (search_q_classic parameters) as [ct|].
  - destruct (to_float float_of_str ct) as [qc|] eqn:Ec; [|discriminate].
    simpl. intros H. injection H as <-.
    exists ft, gt, qt, f, g, qr, qc.
    repeat split; auto using to_float_ok.
  - simpl. intros H. injection H as <-.
    exists ft, gt, qt, f, g, qr, qr.
    repeat split; auto using to_float_ok.
Qed.

Lemma parse_peq_missing (filter_name filter_type parameters q_type : string) :
  search_center_freq parameters = None
  \/ search_boost parameters = None
  \/ search_q_rbj parameters = None ->
  parse_parametric_eq_parameters float_of_str filter_name filter_type parameters q_type = Ok None.
Proof.
  unfold parse_parametric_eq_parameters. intros [H|[H|H]]; rewrite H.
  - reflexivity.
  - now destruct (search_center_freq parameters).
  - now destruct (search_center_freq parameters), (search_boost parameters).
Qed.

(** A chunk that yields a record went through one of the two routines. *)
Lemma parse_chunk_inv (block q_type : string) (included excluded : list string)
    (r : filter_record float) :
  parse_chunk float_of_str block q_type included excluded = Ok (Some r) ->
  exists filter_name filter_type parameters,
    chunk_parts block = Some (filter_name, filter_type, parameters)
    /\ matches_any included filter_type = true
    /\ matches_any excluded filter_type = false
    /\ ((contains "Parametric EQ" filter_type = true
         /\ parse_parametric_eq_parameters float_of_str filter_name filter_type parameters q_type = Ok (Some r))
        \/ (contains "Parametric EQ" filter_type = false
            /\ contains "All-Pass" filter_type = true
            /\ parse_allpass_parameters float_of_str filter_name filter_type parameters
               = Ok (Some r))).
Proof.
  unfold parse_chunk.
  destruct (chunk_parts block) as [[[n t] p]|]; [|discriminate].
  destruct (matches_any excluded t) eqn:Ex; [discriminate|].
  destruct (matches_any included t) eqn:In; [|discriminate].
  simpl. intros H. exists n, t, p. repeat split; auto.
  destruct (contains "Parametric EQ" t) eqn:P; [now left|].
  destruct (contains "All-Pass" t) eqn:A; [now right | discriminate].
Qed.

End ParametricEQ.

(** C1: for a chunk of a Parametric EQ type, a record is produced only if
    the centre frequency, the boost and the RBJ Q are all found by their
    patterns in the chunk body; if one of them is not found the chunk
    gives no record; and when the Classic Q is not found, the record
    produced has [q_classic] equal to [q_rbj]. *)
Theorem parametric_eq_chunk_record {float : Type}
    (float_of_str : string -> option float)
    (block q_type : string) (included excluded : list string)
    (filter_name filter_type parameters : string) :
  chunk_parts block = Some (filter_name, filter_type, parameters) ->
  contains "Parametric EQ" filter_type = true ->
  (forall r,
      parse_chunk float_of_str block q_type included excluded = Ok (Some r) ->
      (search_center_freq parameters <> None
       /\ search_boost parameters <> None
       /\ search_q_rbj parameters <> None)
      /\ (contains (parameter "Center freq (Hz)") parameters = true
          /\ contains (parameter "Boost (dB)") parameters = true
          /\ contains (parameter "Q (RBJ)") parameters = true))
  /\ (search_center_freq parameters = None
      \/ search_boost parameters = None
      \/ search_q_rbj parameters = None ->
      parse_chunk float_of_str block q_type included excluded = Ok None)
  /\ (search_q_classic parameters = None ->
      forall r,
        parse_chunk float_of_str block q_type included excluded = Ok (Some r) ->
        q_classic r = q_rbj r /\ q_rbj r <> None).
Proof.
  intros Hparts Hpeq.
  assert (Hinv : forall r,
             parse_chunk float_of_str block q_type included excluded = Ok (Some r) ->
             parse_parametric_eq_parameters float_of_str filter_name filter_type
               parameters q_type = Ok (Some r)).
  { intros r H. apply parse_chunk_inv in H as (n & t & p & Hp & _ & _ & Hr).
    rewrite Hparts in Hp. injection Hp as <- <- <-.
    destruct Hr as [[_ Hr]|[Hno _]]; [exact Hr | congruence]. }
  split; [|split].
  - intros r H. apply Hinv, parse_peq_inv in H
      as (ft & gt & qt & _ & _ & _ & _ & Hf & Hg & Hq & _).
    split; [rewrite Hf, Hg, Hq; repeat split; discriminate|].
    apply re_search_value_some in Hf as (b1 & a1 & E1 & _).
    apply re_search_value_some in Hg as (b2 & a2 & E2 & _).
    apply re_search_value_some in Hq as (b3 & a3 & E3 & _).
    split; [|split].
    + rewrite E1 at 1. apply contains_append.
    + rewrite E2 at 1. apply contains_append.
    + rewrite E3 at 1. apply contains_append.
  - intros Hmiss. unfold parse_chunk. rewrite Hparts, Hpeq.
    rewrite (parse_peq_missing float_of_str _ _ _ _ Hmiss).
    now destruct (negb _).
  - intros Hclassic r H. apply Hinv, parse_peq_inv in H
      as (ft & gt & qt & f & g & qr & qc & _ & _ & _ & _ & _ & _ & Hc & ->).
    rewrite Hclassic in Hc. subst qc. simpl. split; [reflexivity | discriminate].
Qed.

Lemma parametric_eq_chunk_record_witness :
  let block := lines (peq_chunk "FL1" "Parametric EQ") in
  exists r,
    parse_chunk sample_float block "rbj" default_included_types default_excluded_types
      = Ok (Some r)
    /\ q_classic r = q_rbj r
    /\ q_rbj r = Some "0.7"
    /\ parse_chunk sample_float (lines ["FL1: Parametric EQ"]) "rbj"
         default_included_types default_excluded_types = Ok None.
Proof.
  cbv zeta.
  destruct (parametric_eq_chunk_record sample_float
              (lines (peq_chunk "FL1" "Parametric EQ")) "rbj"
              default_included_types default_excluded_types
              "FL1" "Parametric EQ"
              (lines (tl (peq_chunk "FL1" "Parametric EQ")))
              eq_refl eq_refl) as (_ & _ & Hclassic).
  destruct (parametric_eq_chunk_record sample_float
              (lines ["FL1: Parametric EQ"]) "rbj"
              default_included_types default_excluded_types
              "FL1" "Parametric EQ" EmptyString eq_refl eq_refl) as (_ & Hmiss & _).
  eexists. split; [reflexivity|]. split; [|split].
  - apply (Hclassic eq_refl). reflexivity.
  - reflexivity.
  - apply Hmiss. left. reflexivity.
Defined.

(** C9: with a [q_type] that is not exactly the text classic, the
    parametric-EQ routine behaves as it does for rbj, whatever the text is
    (it is never checked against the two names), and the record it
    produces has [q] equal to [q_rbj]; the same holds for a whole block of
    text. *)
Theorem q_type_other_than_classic {float : Type}
    (float_of_str : string -> option float) (q_type : string) :
  q_type <> "classic" ->
  (forall filter_name filter_type parameters,
      parse_parametric_eq_parameters float_of_str filter_name filter_type parameters q_type
      = parse_parametric_eq_parameters float_of_str filter_name filter_type parameters "rbj"
      /\ forall r,
          parse_parametric_eq_parameters float_of_str filter_name filter_type
            parameters q_type = Ok (Some r) ->
          q_rbj r = Some (q r))
  /\ (forall text included excluded,
         parse_filters_from_text float_of_str text q_type included excluded
         = parse_filters_from_text float_of_str text "rbj" included excluded).
Proof.
  intros Hq. apply String.eqb_neq in Hq.
  assert (Hsame : forall n t p,
             parse_parametric_eq_parameters float_of_str n t p q_type
             = parse_parametric_eq_parameters float_of_str n t p "rbj").
  { intros n t p. unfold parse_parametric_eq_parameters. rewrite Hq. reflexivity. }
  split.
  - intros n t p. split; [apply Hsame|].
    intros r H. apply parse_peq_inv in H
      as (ft & gt & qt & f & g & qr & qc & _ & _ & _ & _ & _ & _ & _ & ->).
    rewrite Hq. reflexivity.
  - intros text included excluded. unfold parse_filters_from_text.
    generalize (split_filter_blocks text) as blocks.
    induction blocks as [|b bs IH]; simpl; [reflexivity|].
    rewrite IH. f_equal.
    unfold parse_chunk. destruct (chunk_parts b) as [[[n t] p]|]; [|reflexivity].
    now rewrite Hsame.
Qed.

Lemma q_type_other_than_classic_witness :
  let parameters :=
    lines (tl (peq_chunk "FL1" "Parametric EQ")
           ++ [(quoted "Classic" ++ " Q = 0.9")%string])%list in
  exists r,
    parse_parametric_eq_parameters sample_float "FL1" "Parametric EQ" parameters "Classic"
      = Ok (Some r)
    /\ q_rbj r = Some (q r)
    /\ q r = "0.7"
    /\ q_classic r = Some "0.9".
Proof.
  cbv zeta.
  assert (Hne : "Classic" <> "classic") by discriminate.
  destruct (q_type_other_than_classic sample_float "Classic" Hne) as [Hroutine _].
  eexists. split; [reflexivity|]. split; [|split; reflexivity].
  apply (Hroutine "FL1" "Parametric EQ"
           (lines (tl (peq_chunk "FL1" "Parametric EQ")
                   ++ [(quoted "Classic" ++ " Q = 0.9")%string])%list)).
  reflexivity.
Defined.

(** ** Inclusion, exclusion and the choice of routine *)

Lemma matches_any_true (phrases : list string) (filter_type : string) :
  matches_any phrases filter_type = true
  <-> exists phrase,
        In phrase phrases /\ contains (lower phrase) (lower filter_type) = true.
Proof. unfold matches_any. apply existsb_exists. Qed.

(** A chunk that gives no record leaves the list of records as it is
    without the chunk. *)
Lemma parse_chunks_skip {float : Type} (float_of_str : string -> option float)
    (before after : list string) (block q_type : string)
    (included excluded : list string) :
  parse_chunk float_of_str block q_type included excluded = Ok None ->
  parse_chunks float_of_str (before ++ block :: after) q_type included excluded
  = parse_chunks float_of_str (before ++ after) q_type included excluded.
Proof.
  intros Hnone. induction before as [|b bs IH]; simpl.
  - rewrite Hnone. simpl.
    now destruct (parse_chunks float_of_str after q_type included excluded).
  - now rewrite IH.
Qed.

(** C2: whatever the include and exclude settings, a chunk whose type
    contains one of the configured exclude phrases, letter case aside,
    contributes no record, also when an include phrase matches as well:
    the chunk alone gives no record, and the records of a text that has
    the chunk are the records of the other chunks. *)
Theorem exclusion_overrides_inclusion {float : Type}
    (float_of_str : string -> option float)
    (text q_type : string) (included_types excluded_types : option (list string))
    (before after : list string) (block filter_name filter_type parameters : string) :
  split_filter_blocks text = (before ++ block :: after)%list ->
  chunk_parts block = Some (filter_name, filter_type, parameters) ->
  (exists phrase,
      In phrase (or_default excluded_types default_excluded_types)
      /\ contains (lower phrase) (lower filter_type) = true) ->
  parse_chunk float_of_str block q_type
    (or_default included_types default_included_types)
    (or_default excluded_types default_excluded_types) = Ok None
  /\ parse_filters_from_text float_of_str text q_type included_types excluded_types
     = parse_chunks float_of_str (before ++ after) q_type
         (or_default included_types default_included_types)
         (or_default excluded_types default_excluded_types).
Proof.
  intros Hsplit Hparts Hex. apply matches_any_true in Hex.
  assert (Hnone : parse_chunk float_of_str block q_type
                    (or_default included_types default_included_types)
                    (or_default excluded_types default_excluded_types) = Ok None).
  { unfold parse_chunk. rewrite Hparts, Hex. reflexivity. }
  split; [exact Hnone|].
  unfold parse_filters_from_text. rewrite Hsplit.
  now apply parse_chunks_skip.
Qed.

Lemma exclusion_overrides_inclusion_witness :
  let excluded_chunk := lines (peq_chunk "FL1" "Parametric EQ after gain block") in
  let kept_chunk := lines (peq_chunk "FL2" "Parametric EQ") in
  let text := lines [excluded_chunk; kept_chunk] in
  matches_any ["Parametric EQ"] "Parametric EQ after gain block" = true
  /\ parse_chunk sample_float excluded_chunk "rbj" ["Parametric EQ"]
       default_excluded_types = Ok None
  /\ parse_filters_from_text sample_float text "rbj" (Some ["Parametric EQ"]) None
     = Ok [mk_filter "FL2" "Parametric EQ" "100" (Some "-3") "0.7"
                     (Some "0.7") (Some "0.7")].
Proof.
  cbv zeta.
  destruct (exclusion_overrides_inclusion sample_float
              (lines [lines (peq_chunk "FL1" "Parametric EQ after gain block");
                      lines (peq_chunk "FL2" "Parametric EQ")])
              "rbj" (Some ["Parametric EQ"]) None
              [] [lines (peq_chunk "FL2" "Parametric EQ")]
              (lines (peq_chunk "FL1" "Parametric EQ after gain block"))
              "FL1" "Parametric EQ after gain block"
              (lines (tl (peq_chunk "FL1" "Parametric EQ after gain block")))
              eq_refl eq_refl) as [Hchunk Htext].
  - exists "Gain Block". split; [left; reflexivity | reflexivity].
  - split; [reflexivity | split; [exact Hchunk|]].
    rewrite Htext. reflexivity.
Defined.

(** C3, as stated, fails: a chunk of type parametric eq, in small letters,
    passes the default include and exclude settings and carries the three
    fields the Parametric EQ routine needs, so that the routine makes a
    record of its body; the chunk is handed to no routine and gives no
    record.  The same happens to all-pass in small letters. *)
Lemma small_letters_reach_no_routine :
  let block := lines (peq_chunk "FL1" "parametric eq") in
  let parameters := lines (tl (peq_chunk "FL1" "parametric eq")) in
  chunk_parts block = Some ("FL1", "parametric eq", parameters)
  /\ matches_any default_included_types "parametric eq" = true
  /\ matches_any default_excluded_types "parametric eq" = false
  /\ spec_routine "parametric eq" = ParametricEQ
  /\ parse_parametric_eq_parameters sample_float "FL1" "parametric eq" parameters "rbj"
     = Ok (Some (mk_filter "FL1" "parametric eq" "100" (Some "-3") "0.7"
                           (Some "0.7") (Some "0.7")))
  /\ parse_chunk sample_float block "rbj" default_included_types default_excluded_types
     = Ok None
  /\ spec_routine "all-pass second-order" = AllPass
  /\ parse_chunk sample_float (lines (allpass_chunk "FL2" "all-pass second-order")) "rbj"
       ["All-Pass"] default_excluded_types
     = Ok None.
Proof. cbv zeta. repeat split. Qed.

(** C3, amended: for a chunk that passes the include and exclude
    settings, the routine is chosen by containment of the exact phrases:
    a type that contains Parametric EQ as written goes to the Parametric
    EQ routine; otherwise a type that contains All-Pass as written goes to
    the All-Pass routine; a type that contains neither as written gives no
    record. *)
Theorem routine_chosen_by_exact_phrase {float : Type}
    (float_of_str : string -> option float)
    (block q_type : string) (included excluded : list string)
    (filter_name filter_type parameters : string) :
  chunk_parts block = Some (filter_name, filter_type, parameters) ->
  matches_any included filter_type = true ->
  matches_any excluded filter_type = false ->
  (contains "Parametric EQ" filter_type = true ->
   parse_chunk float_of_str block q_type included excluded
   = parse_parametric_eq_parameters float_of_str filter_name filter_type parameters q_type)
  /\ (contains "Parametric EQ" filter_type = false ->
      contains "All-Pass" filter_type = true ->
      parse_chunk float_of_str block q_type included excluded
      = parse_allpass_parameters float_of_str filter_name filter_type parameters)
  /\ (contains "Parametric EQ" filter_type = false ->
      contains "All-Pass" filter_type = false ->
      parse_chunk float_of_str block q_type included excluded = Ok None).
Proof.
  intros Hparts Hin Hex. unfold parse_chunk. rewrite Hparts, Hin, Hex. simpl.
  repeat split.
  - intros ->. reflexivity.
  - intros -> ->. reflexivity.
  - intros -> ->. reflexivity.
Qed.

Lemma routine_chosen_by_exact_phrase_witness :
  parse_chunk sample_float (lines (peq_chunk "FL1" "Parametric EQ (RBJ)")) "rbj"
    default_included_types default_excluded_types
  = Ok (Some (mk_filter "FL1" "Parametric EQ (RBJ)" "100" (Some "-3") "0.7"
                        (Some "0.7") (Some "0.7")))
  /\ parse_chunk sample_float (lines (allpass_chunk "FL2" "All-Pass Third-Order")) "rbj"
       cli_default_include_types default_excluded_types
     = Ok (Some (mk_filter "FL2" "All-Pass Third-Order" "60" None "1.0" None None))
  /\ parse_chunk sample_float (lines (peq_chunk "FL3" "PARAMETRIC EQ")) "rbj"
       default_included_types default_excluded_types
     = Ok None.
Proof.
  destruct (routine_chosen_by_exact_phrase sample_float
              (lines (peq_chunk "FL1" "Parametric EQ (RBJ)")) "rbj"
              default_included_types default_excluded_types
              "FL1" "Parametric EQ (RBJ)"
              (lines (tl (peq_chunk "FL1" "Parametric EQ (RBJ)")))
              eq_refl eq_refl eq_refl) as (Hpeq & _ & _).
  destruct (routine_chosen_by_exact_phrase sample_float
              (lines (allpass_chunk "FL2" "All-Pass Third-Order")) "rbj"
              cli_default_include_types default_excluded_types
              "FL2" "All-Pass Third-Order"
              (lines (tl (allpass_chunk "FL2" "All-Pass Third-Order")))
              eq_refl eq_refl eq_refl) as (_ & Hap & _).
  destruct (routine_chosen_by_exact_phrase sample_float
              (lines (peq_chunk "FL3" "PARAMETRIC EQ")) "rbj"
              default_included_types default_excluded_types
              "FL3" "PARAMETRIC EQ"
              (lines (tl (peq_chunk "FL3" "PARAMETRIC EQ")))
              eq_refl eq_refl eq_refl) as (_ & _ & Hnone).
  split; [|split].
  - rewrite (Hpeq eq_refl). reflexivity.
  - rewrite (Hap eq_refl eq_refl). reflexivity.
  - apply Hnone; reflexivity.
Defined.

(** ** The format emitter *)

Section EmitterFacts.

Context {float : Type}.
Variable float_repr : float -> string.

Lemma write_filters_no_rule (r : filter_record float)
    (rest : list (filter_record float)) (n : nat) :
  has_rule r = false ->
  write_filters float_repr (r :: rest) n = write_filters float_repr rest n.
Proof.
  unfold has_rule. intros H. apply orb_false_iff in H as [Hp Ha].
  simpl. now rewrite Hp, Ha.
Qed.

(** The lines written carry consecutive numbers from the starting count
    on, also when the loop is stopped by an exception. *)
Lemma write_filters_numbered (filters : list (filter_record float)) (n : nat) :
  exists bodies,
    fst (write_filters float_repr filters n) = numbered n bodies
    /\ length bodies <= length (filter has_rule filters)
    /\ (Forall gain_present filters ->
        snd (write_filters float_repr filters n) = None
        /\ length bodies = length (filter has_rule filters)).
Proof.
  revert n. induction filters as [|r rest IH]; intros n.
  - exists []. simpl. split; [reflexivity | split; [lia | now split]].
  - destruct (has_rule r) eqn:Hrule.
    + (* the record is rendered, unless its gain is missing *)
      assert (Hstep :
                (exists body,
                    write_filters float_repr (r :: rest) n
                    = (("Filter " ++ of_nat n ++ ": ON " ++ body)
                         :: fst (write_filters float_repr rest (S n)),
                       snd (write_filters float_repr rest (S n))))
                \/ (write_filters float_repr (r :: rest) n = ([], Some KeyError)
                    /\ ~ gain_present r)).
      { unfold has_rule in Hrule. simpl.
        destruct (contains "Parametric EQ" (type r)) eqn:Hp.
        - destruct (gain r) as [g|] eqn:Hg.
          + left. eexists.
            destruct (write_filters float_repr rest (S n)). reflexivity.
          + right. split; [reflexivity|]. intros H. now apply (H Hp).
        - simpl in Hrule. rewrite Hrule. left. eexists.
          destruct (write_filters float_repr rest (S n)). reflexivity. }
      destruct Hstep as [[body Hw]|[Hw Hbad]]; rewrite Hw; simpl; rewrite Hrule.
      * destruct (IH (S n)) as (bodies & Hl & Hle & Hok).
        exists (body :: bodies). simpl. rewrite Hl.
        split; [reflexivity | split; [lia|]].
        intros Hall. destruct (Hok (Forall_inv_tail Hall)) as [He Hlen].
        split; [exact He | now rewrite Hlen].
      * exists []. simpl. split; [reflexivity | split; [lia|]].
        intros Hall. exfalso. exact (Hbad (Forall_inv Hall)).
    + rewrite (write_filters_no_rule r rest n Hrule). simpl. rewrite Hrule.
      destruct (IH n) as (bodies & Hl & Hle & Hok).
      exists bodies. split; [exact Hl | split; [exact Hle|]].
      intros Hall. exact (Hok (Forall_inv_tail Hall)).
Qed.

End EmitterFacts.



(** C4, as stated, fails: the type All-Pass First has the word First and
    none of the other three, so that the order read off the word is 1;
    the line written says Order 2. *)
Lemma first_without_order_suffix :
  let r := mk_filter "FL1" "All-Pass First" "60" None "1.0" None None in
  contains "First" (type r) = true
  /\ spec_allpass_order (type r) = "1"
  /\ write_filters sample_repr [r] 1
     = (["Filter 1: ON All Pass Order 2 Fc 60 Hz Gain 0 dB Q 1.0" ++ nl], None)
  /\ allpass_order (type r) <> spec_allpass_order (type r).
Proof. cbv zeta. repeat split. discriminate. Qed.

(** C4, amended: a record whose type contains All-Pass (and not Parametric
    EQ) is written as the line
    [Filter n: ON All Pass Order o Fc freq Hz Gain 0 dB Q q], where the
    order [o] is read off the phrase found in the type: 2 for
    Second-Order, else 1 for First-Order, else 3 for Third-Order, else 4
    for Fourth-Order, and 2 when none of the four phrases is there. *)
Theorem allpass_line_shape {float : Type} (float_repr : float -> string)
    (r : filter_record float) (rest : list (filter_record float)) (n : nat) :
  contains "Parametric EQ" (type r) = false ->
  contains "All-Pass" (type r) = true ->
  exists order,
    write_filters float_repr (r :: rest) n
    = (("Filter " ++ of_nat n ++ ": ON All Pass Order " ++ order ++ " Fc "
        ++ float_repr (freq r) ++ " Hz Gain 0 dB Q " ++ float_repr (q r) ++ nl)
         :: fst (write_filters float_repr rest (S n)),
       snd (write_filters float_repr rest (S n)))
    /\ (contains "Second-Order" (type r) = true -> order = "2")
    /\ (contains "Second-Order" (type r) = false ->
        contains "First-Order" (type r) = true -> order = "1")
    /\ (contains "Second-Order" (type r) = false ->
        contains "First-Order" (type r) = false ->
        contains "Third-Order" (type r) = true -> order = "3")
    /\ (contains "Second-Order" (type r) = false ->
        contains "First-Order" (type r) = false ->
        contains "Third-Order" (type r) = false ->
        contains "Fourth-Order" (type r) = true -> order = "4")
    /\ (contains "Second-Order" (type r) = false ->
        contains "First-Order" (type r) = false ->
        contains "Third-Order" (type r) = false ->
        contains "Fourth-Order" (type r) = false -> order = "2").
Proof.
  intros Hp Ha. exists (allpass_order (type r)). split.
  - simpl. rewrite Hp, Ha.
    destruct (write_filters float_repr rest (S n)). reflexivity.
  - unfold allpass_order.
    destruct (contains "Second-Order" (type r)),
             (contains "First-Order" (type r)),
             (contains "Third-Order" (type r)),
             (contains "Fourth-Order" (type r));
      repeat split; intros; try reflexivity; discriminate.
Qed.

Lemma allpass_line_shape_witness :
  let r := mk_filter "FL2" "All-Pass Third-Order" "60" None "1.0" None None in
  write_filters sample_repr [r] 1
  = (["Filter 1: ON All Pass Order 3 Fc 60 Hz Gain 0 dB Q 1.0" ++ nl], None).
Proof.
  cbv zeta.
  destruct (allpass_line_shape sample_repr
              (mk_filter "FL2" "All-Pass Third-Order" "60" None "1.0" None None)
              [] 1 eq_refl eq_refl)
    as (order & Hw & _ & _ & H3 & _).
  rewrite Hw. rewrite (H3 eq_refl eq_refl eq_refl). reflexivity.
Defined.

(** ** Records of the parser carry what the emitter reads *)

Section ParsedRecords.

Context {float : Type}.
Variable float_of_str : string -> option float.

Lemma parse_allpass_inv (filter_name filter_type parameters : string)
    (r : filter_record float) :
  parse_allpass_parameters float_of_str filter_name filter_type parameters = Ok (Some r) ->
  type r = filter_type /\ gain r = None.
Proof.
  unfold parse_allpass_parameters.
  destruct (search_allpass_freq parameters) as [ft|]; [|discriminate].
  destruct (search_allpass_q parameters) as [qt|]; [|discriminate].
  destruct (to_float float_of_str ft); [|discriminate].
  destruct (to_float float_of_str qt); [|discriminate].
  simpl. intros H. injection H as <-. now split.
Qed.

Lemma parse_chunk_gain_present (block q_type : string) (included excluded : list string)
    (r : filter_record float) :
  parse_chunk float_of_str block q_type included excluded = Ok (Some r) ->
  gain_present r.
Proof.
  intros H. apply parse_chunk_inv in H as (n & t & p & _ & _ & _ & [[_ H]|[Hp [_ H]]]).
  - apply parse_peq_inv in H
      as (ft & gt & qt & f & g & qr & qc & _ & _ & _ & _ & _ & _ & _ & ->).
    intros _. discriminate.
  - apply parse_allpass_inv in H as [Ht _].
    unfold gain_present. rewrite Ht, Hp. discriminate.
Qed.

Lemma parse_chunks_gain_present (blocks : list string) (q_type : string)
    (included excluded : list string) (rs : list (filter_record float)) :
  parse_chunks float_of_str blocks q_type included excluded = Ok rs ->
  Forall gain_present rs.
Proof.
  revert rs. induction blocks as [|b bs IH]; simpl; intros rs H.
  - injection H as <-. constructor.
  - destruct (parse_chunk float_of_str b q_type included excluded) as [o|] eqn:Hb;
      [|discriminate].
    simpl in H.
    destruct (parse_chunks float_of_str bs q_type included excluded) as [rest|];
      [|discriminate].
    simpl in H. injection H as <-.
    destruct o as [r|]; [|now apply IH].
    constructor; [eapply parse_chunk_gain_present; eauto | now apply IH].
Qed.

Lemma parse_filters_gain_present (text q_type : string)
    (included excluded : option (list string)) (rs : list (filter_record float)) :
  parse_filters_from_text float_of_str text q_type included excluded = Ok rs ->
  Forall gain_present rs.
Proof. apply parse_chunks_gain_present. Qed.

Lemma parse_channel_blocks_ok (blocks : list (string * string)) (q_type : string)
    (included excluded : option (list string))
    (channels : list (string * list (filter_record float))) :
  parse_channel_blocks float_of_str blocks q_type included excluded = Ok channels ->
  Forall channel_ok channels.
Proof.
  revert channels. induction blocks as [|[n c] bs IH]; simpl; intros channels H.
  - injection H as <-. constructor.
  - destruct (parse_filters_from_text float_of_str c q_type included excluded)
      as [fs|] eqn:Hfs; [|discriminate].
    simpl in H.
    destruct (parse_channel_blocks float_of_str bs q_type included excluded)
      as [rest|]; [|discriminate].
    simpl in H. injection H as <-.
    apply parse_filters_gain_present in Hfs.
    destruct fs as [|f fs]; [now apply IH|].
    constructor; [|now apply IH].
    split; [discriminate | exact Hfs].
Qed.

Lemma parse_mso_content_ok (content q_type : string)
    (included excluded : option (list string))
    (channels : list (string * list (filter_record float)))
    (shared_sub : list (filter_record float)) :
  parse_mso_content float_of_str content q_type included excluded
  = Ok (channels, shared_sub) ->
  Forall channel_ok channels /\ Forall gain_present shared_sub.
Proof.
  unfold parse_mso_content.
  destruct (parse_channel_blocks float_of_str (extract_channel_blocks content)
              q_type included excluded) as [chs|] eqn:Hc; [|discriminate].
  simpl. apply parse_channel_blocks_ok in Hc.
  destruct (extract_shared_sub_block content) as [block|].
  - destruct (is_empty block).
    + simpl. intros H. injection H as <- <-. split; [exact Hc | constructor].
    + destruct (parse_filters_from_text float_of_str block q_type included excluded)
        as [fs|] eqn:Hfs; [|discriminate].
      simpl. intros H. injection H as <- <-.
      split; [exact Hc | eapply parse_filters_gain_present; eauto].
  - simpl. intros H. injection H as <- <-. split; [exact Hc | constructor].
Qed.

End ParsedRecords.

(** ** The conversion orchestrator *)

Lemma channel_file_is_not_shared_file (output_folder : string) :
  path_join output_folder (channel_file shared_label)
  <> path_join output_folder shared_file.
Proof.
  unfold path_join. simpl.
  destruct (is_empty output_folder || ends_with_slash output_folder);
    intros H; apply append_cancel_l in H; discriminate.
Qed.

Section Orchestrator.

Context {float : Type}.
Variable float_repr : float -> string.
Variable E : env.

Lemma write_file_events (filters : list (filter_record float))
    (output_file channel_name equaliser_name : string) (ev : write_event float) :
  In ev (fst (write_file float_repr E filters output_file channel_name equaliser_name)) ->
  w_file ev = output_file /\ w_channel ev = channel_name /\ w_filters ev = filters.
Proof.
  unfold write_file, write_storm_audio_format.
  destruct (open_for_write E output_file); simpl; [tauto|].
  destruct (write_filters float_repr filters 1) as [written e]. simpl.
  intros [<-|[]]. now repeat split.
Qed.

Lemma write_file_ok (filters : list (filter_record float))
    (output_file channel_name equaliser_name : string) :
  open_for_write E output_file = None ->
  Forall gain_present filters ->
  write_file float_repr E filters output_file channel_name equaliser_name
  = ([mk_write output_file channel_name filters
               (document float_repr (today E) filters channel_name equaliser_name)],
     None).
Proof.
  intros Hopen Hall. unfold write_file, write_storm_audio_format, document.
  rewrite Hopen.
  destruct (write_filters_numbered float_repr filters 1) as (bodies & _ & _ & Hok).
  destruct (Hok Hall) as [He _].
  destruct (write_filters float_repr filters 1) as [written e].
  simpl in *. now subst e.
Qed.

(** Every file written by the loop over the channels is the file of a
    channel that has records, named after it and labelled with it. *)
Lemma write_channels_events (channels : list (string * list (filter_record float)))
    (shared_sub : list (filter_record float))
    (output_folder equaliser_name : string) (combine_shared : bool)
    (ev : write_event float) :
  In ev (fst (write_channels float_repr E channels shared_sub output_folder
                equaliser_name combine_shared)) ->
  exists channel_name filters,
    In (channel_name, filters) channels
    /\ filters <> []
    /\ w_file ev = path_join output_folder (channel_file channel_name)
    /\ w_channel ev = channel_name
    /\ w_filters ev = channel_records shared_sub filters combine_shared.
Proof.
  induction channels as [|[name filters] rest IH]; simpl; [tauto|].
  destruct filters as [|f fs]; simpl.
  - intros H. destruct (IH H) as (n & fl & Hin & Hrest).
    exists n, fl. split; [now right | exact Hrest].
  - set (to_write := if combine_shared && nonempty shared_sub
                     then (shared_sub ++ f :: fs)%list else f :: fs).
    destruct (write_file float_repr E to_write
                (path_join output_folder (channel_file name)) name equaliser_name)
      as [events e] eqn:Hw.
    assert (Hhere : forall ev', In ev' events ->
                      w_file ev' = path_join output_folder (channel_file name)
                      /\ w_channel ev' = name /\ w_filters ev' = to_write).
    { intros ev' Hin. eapply write_file_events. rewrite Hw. exact Hin. }
    assert (Hthis : In ev events ->
                    exists channel_name filters,
                      In (channel_name, filters) ((name, f :: fs) :: rest)
                      /\ filters <> []
                      /\ w_file ev = path_join output_folder (channel_file channel_name)
                      /\ w_channel ev = channel_name
                      /\ w_filters ev = channel_records shared_sub filters combine_shared).
    { intros Hin. destruct (Hhere ev Hin) as (Hf & Hc & Hr).
      exists name, (f :: fs). split; [now left|]. split; [discriminate|].
      now repeat split. }
    destruct e as [e|]; simpl; [exact Hthis|].
    destruct (write_channels float_repr E rest shared_sub output_folder
                equaliser_name combine_shared) as [more e'].
    simpl in *. intros Hin. apply in_app_or in Hin as [Hin|Hin]; [now apply Hthis|].
    destruct (IH Hin) as (n & fl & Hin' & Hrest).
    exists n, fl. split; [now right | exact Hrest].
Qed.

Lemma channel_event_not_standalone (channels : list (string * list (filter_record float)))
    (shared_sub : list (filter_record float))
    (output_folder equaliser_name : string) (combine_shared : bool) :
  filter (is_standalone_shared output_folder)
    (fst (write_channels float_repr E channels shared_sub output_folder
            equaliser_name combine_shared)) = [].
Proof.
  match goal with |- filter ?p ?l = [] => assert (H : forall ev, In ev l -> p ev = false) end.
  { intros ev Hin.
    apply write_channels_events in Hin as (n & fl & _ & _ & Hf & Hc & _).
    unfold is_standalone_shared.
    destruct (String.eqb (w_channel ev) shared_label) eqn:Hl;
      [|now rewrite andb_false_r].
    apply String.eqb_eq in Hl.
    rewrite andb_true_r. apply String.eqb_neq. rewrite Hf, <- Hc, Hl.
    apply channel_file_is_not_shared_file. }
  revert H.
  generalize (fst (write_channels float_repr E channels shared_sub output_folder
                     equaliser_name combine_shared)) as l.
  induction l as [|x l IH]; intros H; simpl; [reflexivity|].
  rewrite (H x (or_introl eq_refl)). apply IH. intros ev Hin. apply H. now right.
Qed.

End Orchestrator.

Section Runs.

Context {float : Type}.
Variable float_repr : float -> string.
Variable E : env.

Lemma write_channels_ok (channels : list (string * list (filter_record float)))
    (shared_sub : list (filter_record float))
    (output_folder equaliser_name : string) (combine_shared : bool) :
  (forall path, open_for_write E path = None) ->
  Forall channel_ok channels ->
  Forall gain_present shared_sub ->
  write_channels float_repr E channels shared_sub output_folder equaliser_name
    combine_shared
  = (map (channel_event float_repr (today E) shared_sub output_folder equaliser_name
            combine_shared) channels,
     None).
Proof.
  intros Hopen Hch Hsh.
  induction channels as [|[name filters] rest IH]; simpl; [reflexivity|].
  pose proof (Forall_inv Hch) as [Hne Hgain]. simpl in Hne, Hgain.
  destruct filters as [|f fs]; [congruence|]. simpl nonempty. cbv iota.
  rewrite write_file_ok.
  - rewrite (IH (Forall_inv_tail Hch)). reflexivity.
  - apply Hopen.
  - destruct (combine_shared && nonempty shared_sub); [|exact Hgain].
    apply Forall_app. now split.
Qed.

End Runs.



(** ** End phrase before start phrase *)

(** The emitter and the loop over the channels look at the surroundings
    only for the date and for the opening of output files. *)
Lemma write_file_with_input {float : Type} (float_repr : float -> string)
    (E : env) (content : string) :
  write_file float_repr (with_input E content) = write_file float_repr E.
Proof. reflexivity. Qed.

Lemma write_channels_with_input {float : Type} (float_repr : float -> string)
    (E : env) (content : string)
    (channels : list (string * list (filter_record float)))
    (shared_sub : list (filter_record float))
    (output_folder equaliser_name : string) (combine_shared : bool) :
  write_channels float_repr (with_input E content) channels shared_sub
    output_folder equaliser_name combine_shared
  = write_channels float_repr E channels shared_sub output_folder equaliser_name
      combine_shared.
Proof.
  induction channels as [|[name filters] rest IH]; simpl; [reflexivity|].
  rewrite IH, write_file_with_input. reflexivity.
Qed.

(** A run reads its input once and acts on what the parse returns. *)
Lemma convert_with_input {float : Type}
    (float_of_str : string -> option float) (float_repr : float -> string)
    (E : env) (content input_file output_folder q_type equaliser_name : string)
    (included excluded : option (list string)) (combine_shared : bool) :
  convert_mso_to_storm_audio float_of_str float_repr (with_input E content)
    input_file output_folder q_type equaliser_name included excluded combine_shared
  = match makedirs E output_folder with
    | Some e => ([], Some e)
    | None =>
        match parse_mso_content float_of_str content q_type included excluded with
        | Raise e => ([], Some e)
        | Ok (channels, shared_sub) =>
            match write_channels float_repr E channels shared_sub output_folder
                    equaliser_name combine_shared with
            | (events, Some e) => (events, Some e)
            | (events, None) =>
                if nonempty shared_sub && negb combine_shared then
                  let (shared_events, e) :=
                    write_file float_repr E shared_sub
                      (path_join output_folder shared_file) shared_label
                      equaliser_name in
                  ((events ++ shared_events)%list, e)
                else (events, None)
            end
        end
    end.
Proof.
  unfold convert_mso_to_storm_audio, parse_mso_file.
  change (read_input (with_input E content) input_file) with (Ok (A:=string) content).
  change (makedirs (with_input E content) output_folder) with (makedirs E output_folder).
  destruct (makedirs E output_folder); [reflexivity|].
  simpl bind.
  destruct (parse_mso_content float_of_str content q_type included excluded)
    as [[channels shared_sub]|]; [|reflexivity].
  rewrite write_channels_with_input, write_file_with_input. reflexivity.
Qed.

(** C10: when the first end phrase comes before the first start phrase,
    the extractor returns the empty text and raises nothing; the parse of
    the document is the parse of its channels with no shared record and no
    error from the shared side; no run writes the file of the shared
    records alone; and every run is the run on any document that has the
    same channel blocks and no shared block at all. *)
Theorem end_phrase_before_start_phrase {float : Type}
    (float_of_str : string -> option float) (float_repr : float -> string)
    (content : string) (i j : nat) :
  find shared_start_phrase content = Some i ->
  find shared_end_phrase content = Some j ->
  j < i ->
  extract_shared_sub_block content = Some EmptyString
  /\ (forall q_type included excluded,
         parse_mso_content float_of_str content q_type included excluded
         = (channels <- parse_channel_blocks float_of_str
                          (extract_channel_blocks content) q_type included excluded ;;
            Ok (channels, [])))
  /\ (forall E input_file output_folder q_type equaliser_name included excluded
             combine_shared,
         filter (is_standalone_shared output_folder)
           (fst (convert_mso_to_storm_audio float_of_str float_repr
                   (with_input E content) input_file output_folder q_type
                   equaliser_name included excluded combine_shared)) = []
         /\ forall content',
             extract_channel_blocks content' = extract_channel_blocks content ->
             extract_shared_sub_block content' = None ->
             convert_mso_to_storm_audio float_of_str float_repr
               (with_input E content) input_file output_folder q_type
               equaliser_name included excluded combine_shared
             = convert_mso_to_storm_audio float_of_str float_repr
                 (with_input E content') input_file output_folder q_type
                 equaliser_name included excluded combine_shared).
Proof.
  intros Hi Hj Hlt.
  assert (Hx : extract_shared_sub_block content = Some EmptyString).
  { unfold extract_shared_sub_block. rewrite Hi, Hj.
    rewrite slice_empty by lia. reflexivity. }
  assert (Hparse : forall q_type included excluded,
             parse_mso_content float_of_str content q_type included excluded
             = (channels <- parse_channel_blocks float_of_str
                              (extract_channel_blocks content) q_type included excluded ;;
                Ok (channels, []))).
  { intros q_type included excluded. unfold parse_mso_content. rewrite Hx.
    reflexivity. }
  split; [exact Hx | split; [exact Hparse|]].
  intros E input_file output_folder q_type equaliser_name included excluded
         combine_shared.
  split.
  - rewrite convert_with_input, Hparse.
    destruct (makedirs E output_folder); [reflexivity|].
    destruct (parse_channel_blocks float_of_str (extract_channel_blocks content)
                q_type included excluded) as [channels|]; [|reflexivity].
    simpl bind. cbv iota beta.
    pose proof (channel_event_not_standalone float_repr E
                  channels [] output_folder equaliser_name combine_shared) as Hnone.
    destruct (write_channels float_repr E channels []
                output_folder equaliser_name combine_shared) as [events e].
    simpl in Hnone. destruct e; exact Hnone.
  - intros content' Hchannels Hnone.
    rewrite !convert_with_input, Hparse.
    unfold parse_mso_content. rewrite Hchannels, Hnone. reflexivity.
Qed.

Lemma end_phrase_before_start_phrase_witness :
  let run content :=
    convert_mso_to_storm_audio sample_float sample_repr
      (with_input (quiet_env EmptyString) content)
      "filters.mso" "out" "rbj" "StormAudio" None None false in
  find shared_start_phrase reversed_document = Some 167
  /\ find shared_end_phrase reversed_document = Some 0
  /\ extract_shared_sub_block reversed_document = Some EmptyString
  /\ map (@w_file _) (fst (run reversed_document)) = ["out/Left_filters.txt"]
  /\ run reversed_document = run channel_only_document.
Proof.
  cbv zeta.
  assert (Hlt : 0 < 167) by (repeat constructor).
  destruct (end_phrase_before_start_phrase sample_float sample_repr
              reversed_document 167 0 eq_refl eq_refl Hlt) as (Hx & _ & Hrun).
  destruct (Hrun (quiet_env EmptyString) "filters.mso" "out" "rbj" "StormAudio"
              None None false) as [_ Hsame].
  split; [reflexivity | split; [reflexivity | split; [exact Hx | split]]].
  - reflexivity.
  - apply Hsame; reflexivity.
Defined.

(** ** The include set when none is given *)

(** C8: the conversion called without an include set does not behave as
    with the set of Parametric EQ and All-Pass.  The parser then falls back
    on Parametric EQ alone: for a document whose only filter is an all-pass
    filter the run writes no file, where the run with the two phrases, and
    the run started from the command line without the option, write the
    file of the channel with its all-pass line. *)
Theorem include_set_left_out_drops_allpass :
  (forall (float : Type) (float_of_str : string -> option float)
          (text q_type : string) (excluded : option (list string)),
      parse_filters_from_text float_of_str text q_type None excluded
      = parse_filters_from_text float_of_str text q_type (Some ["Parametric EQ"]) excluded)
  /\ convert_mso_to_storm_audio sample_float sample_repr (quiet_env allpass_document)
       "filters.mso" "out" "rbj" "StormAudio" None None false
     = ([], None)
  /\ map (fun ev => (w_file ev, fst (write_filters sample_repr (w_filters ev) 1)))
       (fst (convert_mso_to_storm_audio sample_float sample_repr
               (quiet_env allpass_document)
               "filters.mso" "out" "rbj" "StormAudio"
               (Some ["Parametric EQ"; "All-Pass"]) None false))
     = [("out/Left_filters.txt",
         ["Filter 1: ON All Pass Order 3 Fc 60 Hz Gain 0 dB Q 1.0" ++ nl])]
  /\ main sample_float sample_repr (quiet_env allpass_document)
       (mk_args "filters.mso" "out" None None None None false)
     = convert_mso_to_storm_audio sample_float sample_repr (quiet_env allpass_document)
         "filters.mso" "out" "rbj" "StormAudio"
         (Some ["Parametric EQ"; "All-Pass"]) None false.
Proof.
  split; [reflexivity|].
  split; [reflexivity|].
  split; [reflexivity|].
  reflexivity.
Qed.

(* ===================================================================== *)
(** * Further properties of the code                                      *)
(* ===================================================================== *)

Import Observers.

(** ** The mapping of channel blocks *)

Section DictFacts.

Context {V : Type}.

Lemma dict_get_set_same (k : string) (v : V) (d : list (string * V)) :
  dict_get k (dict_set k v d) = Some v.
Proof.
  induction d as [|[k' v'] d IH]; simpl.
  - now rewrite String.eqb_refl.
  - destruct (String.eqb k k') eqn:E; simpl.
    + now rewrite String.eqb_refl.
    + now rewrite E.
Qed.

Lemma dict_get_set_other (k k0 : string) (v : V) (d : list (string * V)) :
  k0 <> k -> dict_get k0 (dict_set k v d) = dict_get k0 d.
Proof.
  intros Hne. induction d as [|[k' v'] d IH]; simpl.
  - apply String.eqb_neq in Hne. now rewrite Hne.
  - destruct (String.eqb k k') eqn:E; simpl.
    + apply String.eqb_eq in E. subst k'.
      apply String.eqb_neq in Hne. now rewrite Hne.
    + now rewrite IH.
Qed.

Lemma dict_set_keys (k : string) (v : V) (d : list (string * V)) :
  map fst (dict_set k v d)
  = if existsb (String.eqb k) (map fst d) then map fst d
    else (map fst d ++ [k])%list.
Proof.
  induction d as [|[k' v'] d IH]; simpl; [reflexivity|].
  destruct (String.eqb k k') eqn:E; simpl.
  - apply String.eqb_eq in E. now subst.
  - rewrite IH. now destruct (existsb (String.eqb k) (map fst d)).
Qed.

Lemma dict_set_values (P : V -> Prop) (k : string) (v : V) (d : list (string * V)) :
  P v -> Forall (fun kv => P (snd kv)) d ->
  Forall (fun kv => P (snd kv)) (dict_set k v d).
Proof.
  intros Hv. induction d as [|[k' v'] d IH]; simpl; intros Hd.
  - now constructor.
  - destruct (String.eqb k k').
    + constructor; [exact Hv | exact (Forall_inv_tail Hd)].
    + constructor; [exact (Forall_inv Hd) | exact (IH (Forall_inv_tail Hd))].
Qed.

End DictFacts.

Lemma existsb_eqb_in (k : string) (l : list string) :
  existsb (String.eqb k) l = true <-> In k l.
Proof.
  rewrite existsb_exists. split.
  - intros (x & Hin & E). apply String.eqb_eq in E. now subst.
  - intros Hin. exists k. split; [exact Hin | apply String.eqb_refl].
Qed.

Lemma dict_set_nodup {V : Type} (k : string) (v : V) (d : list (string * V)) :
  NoDup (map fst d) -> NoDup (map fst (dict_set k v d)).
Proof.
  intros Hd. rewrite dict_set_keys.
  destruct (existsb (String.eqb k) (map fst d)) eqn:E; [exact Hd|].
  apply NoDup_app; [exact Hd | repeat constructor; intros [] |].
  intros x Hin [<-|[]].
  apply existsb_eqb_in in Hin. congruence.
Qed.

(** The step by which [extract_channel_blocks] fills its dict. *)
Lemma fold_channels_get (ms : list (string * string)) (d : list (string * string))
    (name : string) :
  dict_get name
    (fold_left (fun channels m => dict_set (fst m) (strip (snd m)) channels) ms d)
  = match last_body name ms with
    | Some body => Some (strip body)
    | None => dict_get name d
    end.
Proof.
  revert d. induction ms as [|[n b] rest IH]; intros d; simpl; [reflexivity|].
  rewrite IH. destruct (last_body name rest); [reflexivity|].
  destruct (String.eqb name n) eqn:E.
  - apply String.eqb_eq in E. subst n. apply dict_get_set_same.
  - apply String.eqb_neq in E. now apply dict_get_set_other.
Qed.

Lemma fold_channels_keys (ms : list (string * string)) (d : list (string * string)) :
  map fst
    (fold_left (fun channels m => dict_set (fst m) (strip (snd m)) channels) ms d)
  = fold_left
      (fun seen k => if existsb (String.eqb k) seen then seen else (seen ++ [k])%list)
      (map fst ms) (map fst d).
Proof.
  revert d. induction ms as [|[n b] rest IH]; intros d; simpl; [reflexivity|].
  now rewrite IH, dict_set_keys.
Qed.

Lemma fold_channels_nodup (ms : list (string * string)) (d : list (string * string)) :
  NoDup (map fst d) ->
  NoDup (map fst
           (fold_left (fun channels m => dict_set (fst m) (strip (snd m)) channels)
              ms d)).
Proof.
  revert d. induction ms as [|[n b] rest IH]; intros d Hd; simpl; [exact Hd|].
  apply IH. now apply dict_set_nodup.
Qed.

Lemma all_chars_take_while (p : ascii -> bool) (s : string) :
  all_chars p (take_while p s) = true.
Proof.
  induction s as [|c s IH]; simpl; [reflexivity|].
  destruct (p c) eqn:E; simpl; [now rewrite E, IH | reflexivity].
Qed.

Lemma match_channel_at_name (s name body : string) (len : nat) :
  match_channel_at s = Some (name, body, len) ->
  is_empty name = false
  /\ all_chars (fun c => negb (is_dquote c)) name = true.
Proof.
  unfold match_channel_at.
  destruct (starts_with channel_open s); [|discriminate].
  set (r := drop (String.length channel_open) s).
  set (n := take_while (fun c => negb (is_dquote c)) r).
  destruct (is_empty n) eqn:En; [discriminate|].
  destruct (drop (String.length n) r) as [|c r2]; [discriminate|].
  destruct (is_dquote c); [|discriminate].
  destruct (find (channel_close n) r2); [|discriminate].
  intros H. injection H as <- _ _.
  split; [exact En | apply all_chars_take_while].
Qed.

Lemma findall_channels_names (s : string) (skip : nat) :
  Forall (fun m => is_empty (fst m) = false
                   /\ all_chars (fun c => negb (is_dquote c)) (fst m) = true)
         (findall_channels s skip).
Proof.
  revert skip. induction s as [|c s IH]; intros skip; simpl; [constructor|].
  destruct skip as [|k]; [|apply IH].
  destruct (match_channel_at (String c s)) as [[[name body] len]|] eqn:E; [|apply IH].
  constructor; [|apply IH].
  simpl. eapply match_channel_at_name; eauto.
Qed.

Lemma fold_channels_key_origin (ms : list (string * string))
    (d : list (string * string)) (k : string) :
  In k (map fst
          (fold_left (fun channels m => dict_set (fst m) (strip (snd m)) channels)
             ms d)) ->
  In k (map fst ms) \/ In k (map fst d).
Proof.
  revert d. induction ms as [|[n b] rest IH]; intros d; simpl; [now right|].
  intros H. apply IH in H as [H|H]; [now left; right|].
  rewrite dict_set_keys in H.
  destruct (existsb (String.eqb n) (map fst d)); [now right|].
  apply in_app_or in H as [H|[<-|[]]]; [now right | now left; left].
Qed.

(** X1: the channel names of the mapping are pairwise distinct, and each
    of them is a non-empty text without a double quote. *)
Theorem channel_names_distinct_and_plain (content : string) :
  NoDup (map fst (extract_channel_blocks content))
  /\ forall name text,
      In (name, text) (extract_channel_blocks content) ->
      is_empty name = false
      /\ all_chars (fun c => negb (is_dquote c)) name = true.
Proof.
  split.
  - apply fold_channels_nodup. constructor.
  - intros name text Hin.
    assert (Hk : In name (map fst (extract_channel_blocks content))).
    { change name with (fst (name, text)). now apply in_map. }
    apply fold_channels_key_origin in Hk as [Hk|[]].
    apply in_map_iff in Hk as (m & <- & Hm).
    pose proof (findall_channels_names content 0) as Hall.
    rewrite Forall_forall in Hall. exact (Hall m Hm).
Qed.

(** X2: when a channel name occurs in several blocks the mapping keeps
    the trimmed text of the last of them, at the place of the first: the
    lookup of a name gives the trimmed second group of the last match with
    that name, and the names come in the order in which they are first
    matched. *)
Theorem channel_blocks_last_wins (content : string) :
  (forall name,
      dict_get name (extract_channel_blocks content)
      = option_map strip (last_body name (findall_channels content 0)))
  /\ map fst (extract_channel_blocks content)
     = first_seen (map fst (findall_channels content 0)).
Proof.
  split.
  - intros name. unfold extract_channel_blocks. rewrite fold_channels_get.
    now destruct (last_body name (findall_channels content 0)).
  - unfold extract_channel_blocks, first_seen. now rewrite fold_channels_keys.
Qed.

(** A document with the block of Left twice and the block of Right in
    between: Left keeps its first place and has the text of its second
    block. *)
Lemma channel_blocks_last_wins_example :
  extract_channel_blocks
    (lines (channel_block "Left" ["first"] ++ channel_block "Right" ["other"]
            ++ channel_block "Left" ["second"; "  "])%list)
  = [("Left", "second"); ("Right", "other")].
Proof. reflexivity. Qed.

(** ** Trimmed texts *)

Lemma lstrip_head (s : string) :
  lstrip s = EmptyString
  \/ exists c r, lstrip s = String c r /\ is_space c = false.
Proof.
  unfold lstrip. induction s as [|c s IH]; simpl; [now left|].
  destruct (is_space c) eqn:E; [exact IH|].
  right. now exists c, s.
Qed.

Lemma rstrip_idempotent (s : string) : rstrip (rstrip s) = rstrip s.
Proof.
  induction s as [|c s IH]; simpl; [reflexivity|].
  destruct (is_space c && is_empty (rstrip s)) eqn:E; [reflexivity|].
  simpl. now rewrite IH, E.
Qed.

Lemma strip_idempotent (s : string) : strip (strip s) = strip s.
Proof.
  unfold strip. destruct (lstrip_head s) as [->|(c & r & -> & Hc)]; [reflexivity|].
  simpl rstrip at 2. rewrite Hc. simpl andb. cbv iota.
  unfold lstrip at 1. simpl drop_while. rewrite Hc.
  change (String c (rstrip r)) with (String c (rstrip r)).
  replace (String c (rstrip r)) with (rstrip (String c r))
    by (simpl; now rewrite Hc).
  apply rstrip_idempotent.
Qed.

(** X3: what the two extractors return is trimmed: trimming the text of
    a channel block, or the shared block, once more changes nothing. *)
Theorem extracted_blocks_are_trimmed (content : string) :
  (forall name text,
      In (name, text) (extract_channel_blocks content) -> strip text = text)
  /\ (forall block,
         extract_shared_sub_block content = Some block -> strip block = block).
Proof.
  split.
  - intros name text Hin.
    assert (Hall : Forall (fun kv => strip (snd kv) = snd kv)
                     (extract_channel_blocks content)).
    { unfold extract_channel_blocks.
      generalize (findall_channels content 0) as ms.
      assert (Hd : Forall (fun kv : string * string => strip (snd kv) = snd kv) [])
        by constructor.
      revert Hd. generalize (@nil (string * string)) as d.
      intros d Hd ms. revert d Hd.
      induction ms as [|[n b] rest IH]; intros d Hd; simpl; [exact Hd|].
      apply IH.
      apply (dict_set_values (fun v => strip v = v)); [apply strip_idempotent | exact Hd]. }
    rewrite Forall_forall in Hall. exact (Hall (name, text) Hin).
  - intros block. unfold extract_shared_sub_block.
    destruct (find shared_start_phrase content) as [i|]; [|discriminate].
    destruct (find shared_end_phrase content) as [j|]; [|discriminate].
    intros H. injection H as <-. apply strip_idempotent.
Qed.

Lemma extracted_blocks_are_trimmed_witness :
  extract_channel_blocks (lines (channel_block "Left" ["  first  "]))
  = [("Left", "first")]
  /\ strip "first" = "first".
Proof.
  split; [reflexivity|].
  destruct (extracted_blocks_are_trimmed
              (lines (channel_block "Left" ["  first  "]))) as [Hch _].
  apply (Hch "Left"). left. reflexivity.
Defined.

Lemma channel_names_distinct_and_plain_witness :
  let content := lines (channel_block "Left" ["first"] ++ channel_block "Left" ["second"])%list in
  extract_channel_blocks content = [("Left", "second")]
  /\ is_empty "Left" = false
  /\ all_chars (fun c => negb (is_dquote c)) "Left" = true.
Proof.
  cbv zeta.
  destruct (channel_names_distinct_and_plain
              (lines (channel_block "Left" ["first"] ++ channel_block "Left" ["second"])%list))
    as [_ Hplain].
  split; [reflexivity|].
  apply (Hplain "Left" "second"). left. reflexivity.
Defined.

(** ** A block at the head of a document *)

Lemma append_assoc (a b c : string) : (a ++ b) ++ c = a ++ b ++ c.
Proof. induction a as [|x a IH]; simpl; [reflexivity | now rewrite IH]. Qed.

Lemma length_append (a b : string) :
  String.length (a ++ b) = String.length a + String.length b.
Proof. induction a as [|x a IH]; simpl; [reflexivity | now rewrite IH]. Qed.

Lemma take_append_exact (p r : string) : take (String.length p) (p ++ r) = p.
Proof.
  rewrite <- (Nat.add_0_r (String.length p)), take_append_length.
  apply append_nil_r.
Qed.

Lemma take_while_stops (p : ascii -> bool) (a : string) (c : ascii) (r : string) :
  all_chars p a = true -> p c = false ->
  take_while p (a ++ String c r) = a.
Proof.
  intros Ha Hc. induction a as [|x a IH]; simpl in *.
  - now rewrite Hc.
  - apply andb_true_iff in Ha as [Hx Ha]. now rewrite Hx, IH.
Qed.

(** The search resumes right after the characters of a match. *)
Lemma findall_channels_skip (p t : string) :
  findall_channels (p ++ t) (String.length p) = findall_channels t 0.
Proof. induction p as [|c p IH]; simpl; [reflexivity | exact IH]. Qed.

Lemma match_channel_at_block (name body after : string) :
  is_empty name = false ->
  all_chars (fun c => negb (is_dquote c)) name = true ->
  find (channel_close name) (body ++ channel_close name ++ after)
  = Some (String.length body) ->
  match_channel_at
    (channel_open ++ name ++ String dquote (body ++ channel_close name ++ after))
  = Some (name, body,
          String.length channel_open + String.length name + 1 + String.length body
          + String.length (channel_close name)).
Proof.
  intros Hne Hplain Hfirst. unfold match_channel_at.
  rewrite starts_with_append, drop_append_length. cbv zeta.
  rewrite (take_while_stops _ name dquote _ Hplain eq_refl).
  rewrite Hne, drop_append_length.
  change (is_dquote dquote) with true. cbv iota.
  rewrite Hfirst. now rewrite take_append_exact.
Qed.

Lemma block_then_rest (a n : string) (c : ascii) (b e t : string) :
  a ++ n ++ String c (b ++ e ++ t) = (a ++ n ++ String c (b ++ e)) ++ t.
Proof. rewrite !append_assoc. simpl. now rewrite !append_assoc. Qed.

Lemma findall_channels_at_match (c : ascii) (p t name body : string) :
  match_channel_at (String c (p ++ t)) = Some (name, body, S (String.length p)) ->
  findall_channels (String c (p ++ t)) 0 = (name, body) :: findall_channels t 0.
Proof.
  intros H. simpl findall_channels. rewrite H. f_equal.
  simpl Nat.sub. rewrite Nat.sub_0_r. apply findall_channels_skip.
Qed.

(** X4: a block that stands at the head of a document is read back: for
    a name that is not empty and has no double quote, and a body after
    which the closing phrase of that name stands for the first time, the
    opening phrase, the name, the body and the closing phrase give the
    match of the name with the body, and the search goes on in what
    follows; when nothing follows that matches, the mapping is the name
    with the trimmed body. *)
Theorem channel_block_read_back (name body after : string) :
  is_empty name = false ->
  all_chars (fun c => negb (is_dquote c)) name = true ->
  find (channel_close name) (body ++ channel_close name ++ after)
  = Some (String.length body) ->
  findall_channels
    (channel_open ++ name ++ String dquote (body ++ channel_close name ++ after)) 0
  = (name, body) :: findall_channels after 0
  /\ (findall_channels after 0 = [] ->
      extract_channel_blocks
        (channel_open ++ name ++ String dquote (body ++ channel_close name ++ after))
      = [(name, strip body)]).
Proof.
  intros Hne Hplain Hfirst.
  assert (Hall : findall_channels
                   (channel_open ++ name
                    ++ String dquote (body ++ channel_close name ++ after)) 0
                 = (name, body) :: findall_channels after 0).
  { pose proof (match_channel_at_block name body after Hne Hplain Hfirst) as Hm.
    rewrite block_then_rest in Hm |- *.
    set (tail := "hannel: " ++ String dquote EmptyString).
    change channel_open with (String "C" tail) in Hm |- *.
    change ((String "C" tail ++ name ++ String dquote (body ++ channel_close name))
            ++ after)
      with (String "C" ((tail ++ name ++ String dquote (body ++ channel_close name))
                        ++ after)) in Hm |- *.
    apply findall_channels_at_match. rewrite Hm. do 2 f_equal.
    unfold channel_close, quoted. repeat (rewrite !length_append; simpl). lia. }
  split; [exact Hall|].
  intros Hnothing. unfold extract_channel_blocks. rewrite Hall, Hnothing. reflexivity.
Qed.

Lemma channel_block_read_back_witness :
  let body := nl ++ "FL1: Gain Block" ++ nl in
  extract_channel_blocks
    (channel_open ++ "Left" ++ String dquote (body ++ channel_close "Left" ++ nl))
  = [("Left", "FL1: Gain Block")].
Proof.
  cbv zeta.
  destruct (channel_block_read_back "Left" (nl ++ "FL1: Gain Block" ++ nl) nl
              eq_refl eq_refl eq_refl) as [_ Hone].
  exact (Hone eq_refl).
Defined.

(** ** Cutting a text into chunks *)

Lemma split_filter_blocks_cons (text : string) :
  exists b bs, split_filter_blocks text = b :: bs.
Proof.
  induction text as [|c s (b & bs & IH)]; simpl.
  - now exists EmptyString, [].
  - destruct (is_newline c && at_filter_tag s); [now eexists; eexists|].
    rewrite IH. now eexists; eexists.
Qed.

Lemma colon_after_digits_prefix (b x : string) :
  starts_with ":" (drop_while is_digit (b ++ String newline x)) = true ->
  starts_with ":" (drop_while is_digit b) = true.
Proof.
  induction b as [|c b IH]; simpl.
  - discriminate.
  - destruct (is_digit c); [exact IH|]. simpl. now destruct (Ascii.eqb ":" c).
Qed.

Lemma digits_then_colon_prefix (b x : string) :
  negb (is_empty (take_while is_digit (b ++ String newline x)))
  && starts_with ":" (drop_while is_digit (b ++ String newline x)) = true ->
  negb (is_empty (take_while is_digit b))
  && starts_with ":" (drop_while is_digit b) = true.
Proof.
  destruct b as [|c b]; simpl; [discriminate|].
  destruct (is_digit c); simpl; [|discriminate].
  apply colon_after_digits_prefix.
Qed.

(** A filter tag holds no line feed: it stands in a text as soon as it
    stands in the text continued by a line feed and more. *)
Lemma at_filter_tag_prefix (b x : string) :
  at_filter_tag (b ++ String newline x) = true -> at_filter_tag b = true.
Proof.
  unfold at_filter_tag.
  destruct b as [|c1 [|c2 b]]; cbn [append drop].
  - simpl. discriminate.
  - cbn [starts_with]. destruct (Ascii.eqb "F" c1); simpl; discriminate.
  - change (starts_with "FL" (String c1 (String c2 (b ++ String newline x))))
      with (starts_with "FL" (String c1 (String c2 b))).
    intros H. apply andb_true_iff in H as [H Hcolon].
    apply andb_true_iff in H as [Hfl Hdigits].
    rewrite Hfl. cbn [andb].
    apply (digits_then_colon_prefix b x). now rewrite Hdigits, Hcolon.
Qed.

Lemma split_filter_blocks_join (text : string) :
  join_lines (split_filter_blocks text) = text.
Proof.
  induction text as [|c s IH]; [reflexivity|].
  cbn [split_filter_blocks].
  destruct (split_filter_blocks_cons s) as (b & bs & E). rewrite E in *.
  destruct (is_newline c && at_filter_tag s) eqn:Hcut.
  - apply andb_true_iff in Hcut as [Hc _]. apply Ascii.eqb_eq in Hc. subst c.
    change (join_lines (EmptyString :: b :: bs))
      with (EmptyString ++ nl ++ join_lines (b :: bs)).
    now rewrite IH.
  - destruct bs as [|b' bs].
    + cbn [join_lines] in *. now subst b.
    + change (join_lines (String c b :: b' :: bs))
        with (String c (b ++ nl ++ join_lines (b' :: bs))).
      change (join_lines (b :: b' :: bs))
        with (b ++ nl ++ join_lines (b' :: bs)) in IH.
      now rewrite IH.
Qed.

Lemma split_filter_blocks_head_tag (text : string) :
  at_filter_tag text = true ->
  exists b bs, split_filter_blocks text = b :: bs /\ at_filter_tag b = true.
Proof.
  intros Htag. destruct (split_filter_blocks_cons text) as (b & bs & E).
  exists b, bs. split; [exact E|].
  pose proof (split_filter_blocks_join text) as Hj. rewrite E in Hj.
  destruct bs as [|b' bs]; simpl in Hj.
  - now subst b.
  - rewrite <- Hj in Htag. unfold nl in Htag. simpl in Htag.
    now apply at_filter_tag_prefix in Htag.
Qed.

(** X5: cutting a text into chunks loses nothing and cuts only before a
    filter tag: the chunks joined again by line feeds are the text, and
    every chunk after the first begins with FL, digits and a colon. *)
Theorem split_filter_blocks_keeps_text (text : string) :
  join_lines (split_filter_blocks text) = text
  /\ Forall (fun block => at_filter_tag block = true) (tl (split_filter_blocks text)).
Proof.
  split; [apply split_filter_blocks_join|].
  induction text as [|c s IH]; simpl; [constructor|].
  destruct (is_newline c && at_filter_tag s) eqn:Hcut.
  - apply andb_true_iff in Hcut as [_ Htag]. simpl.
    destruct (split_filter_blocks_head_tag s Htag) as (b & bs & E & Hb).
    rewrite E in *. simpl in IH. now constructor.
  - destruct (split_filter_blocks_cons s) as (b & bs & E). rewrite E in *.
    exact IH.
Qed.

Lemma split_filter_blocks_keeps_text_example :
  split_filter_blocks
    (lines ["header"; "FL1: Gain Block"; "FLx: not a tag"; "FL22:"; "last"])
  = ["header"; lines ["FL1: Gain Block"; "FLx: not a tag"]; lines ["FL22:"; "last"]].
Proof. reflexivity. Qed.

(** ** What every parsed record looks like *)

Lemma match_filter_header_name (first_line n rest : string) :
  match_filter_header first_line = Some (n, rest) -> is_filter_name n.
Proof.
  unfold match_filter_header.
  destruct (starts_with "FL" first_line); [|discriminate].
  destruct (is_empty (take_while is_digit (drop 2 first_line))) eqn:Hd;
    [discriminate|].
  destruct (starts_with ": " (drop_while is_digit (drop 2 first_line)));
    [|discriminate].
  destruct (is_empty (take_while (fun c => negb (is_newline c))
                        (drop 2 (drop_while is_digit (drop 2 first_line)))));
    [discriminate|].
  intros H. injection H as <- _.
  exists (take_while is_digit (drop 2 first_line)).
  split; [reflexivity | split; [exact Hd | apply all_chars_take_while]].
Qed.

Lemma chunk_parts_name (block n t p : string) :
  chunk_parts block = Some (n, t, p) -> is_filter_name n.
Proof.
  unfold chunk_parts.
  destruct (is_empty (strip block)); [discriminate|].
  destruct (split_lines (strip block)) as [|first_line params]; [discriminate|].
  destruct (match_filter_header first_line) as [[n' rest]|] eqn:Hh; [|discriminate].
  intros H. injection H as <- _ _. eapply match_filter_header_name; eauto.
Qed.

Section RecordShapes.

Context {float : Type}.
Variable float_of_str : string -> option float.

Lemma parse_allpass_record (filter_name filter_type parameters : string)
    (r : filter_record float) :
  parse_allpass_parameters float_of_str filter_name filter_type parameters = Ok (Some r) ->
  exists freq_text q_text f qv,
    search_allpass_freq parameters = Some freq_text
    /\ search_allpass_q parameters = Some q_text
    /\ float_of_str freq_text = Some f
    /\ float_of_str q_text = Some qv
    /\ r = mk_filter filter_name filter_type f None qv None None.
Proof.
  unfold parse_allpass_parameters.
  destruct (search_allpass_freq parameters) as [ft|]; [|discriminate].
  destruct (search_allpass_q parameters) as [qt|]; [|discriminate].
  destruct (to_float float_of_str ft) as [f|] eqn:Ef; [|discriminate].
  destruct (to_float float_of_str qt) as [qv|] eqn:Eq; [|discriminate].
  simpl. intros H. injection H as <-.
  exists ft, qt, f, qv. repeat split; auto using to_float_ok.
Qed.

Lemma parse_chunk_invariant (block q_type : string) (included excluded : list string)
    (r : filter_record float) :
  parse_chunk float_of_str block q_type included excluded = Ok (Some r) ->
  record_invariant included excluded r.
Proof.
  intros H.
  apply parse_chunk_inv in H as (n & t & p & Hparts & Hin & Hex & Hr).
  apply chunk_parts_name in Hparts.
  destruct Hr as [[Hp Hr]|(Hp & Ha & Hr)].
  - apply parse_peq_inv in Hr
      as (ft & gt & qt & f & g & qr & qc & _ & _ & _ & _ & _ & _ & _ & ->).
    unfold record_invariant. simpl. rewrite Hp.
    repeat split; auto.
    exists g, qr, qc. simpl. repeat split.
    destruct (String.eqb q_type "classic"); [now right | now left].
  - apply parse_allpass_record in Hr as (ft & qt & f & qv & _ & _ & _ & _ & ->).
    unfold record_invariant. simpl. rewrite Hp.
    repeat split; auto.
Qed.

Lemma parse_chunks_invariant (blocks : list string) (q_type : string)
    (included excluded : list string) (rs : list (filter_record float)) :
  parse_chunks float_of_str blocks q_type included excluded = Ok rs ->
  Forall (record_invariant included excluded) rs.
Proof.
  revert rs. induction blocks as [|b bs IH]; simpl; intros rs H.
  - injection H as <-. constructor.
  - destruct (parse_chunk float_of_str b q_type included excluded) as [o|] eqn:Hb;
      [|discriminate].
    simpl in H.
    destruct (parse_chunks float_of_str bs q_type included excluded) as [rest|];
      [|discriminate].
    simpl in H. injection H as <-.
    destruct o as [r|]; [|now apply IH].
    constructor; [eapply parse_chunk_invariant; eauto | now apply IH].
Qed.

End RecordShapes.

(** X6: every record that the parse of a document returns, in a channel
    or in the shared list, is named FL and digits, has a type that matches
    an include phrase and no exclude phrase in force, and has the keys of
    its kind: with Parametric EQ in its type, the gain and both Q values,
    the selected Q being one of the two; otherwise All-Pass in its type
    and none of those three keys.  Every channel that is returned has at
    least one record. *)
Theorem parsed_records_invariant {float : Type}
    (float_of_str : string -> option float) (content q_type : string)
    (included_types excluded_types : option (list string))
    (channels : list (string * list (filter_record float)))
    (shared_sub : list (filter_record float)) :
  parse_mso_content float_of_str content q_type included_types excluded_types
  = Ok (channels, shared_sub) ->
  Forall (fun channel =>
            snd channel <> []
            /\ Forall (record_invariant
                         (or_default included_types default_included_types)
                         (or_default excluded_types default_excluded_types))
                      (snd channel)) channels
  /\ Forall (record_invariant (or_default included_types default_included_types)
                              (or_default excluded_types default_excluded_types))
            shared_sub.
Proof.
  unfold parse_mso_content.
  generalize (extract_channel_blocks content) as blocks. intros blocks.
  destruct (parse_channel_blocks float_of_str blocks q_type included_types
              excluded_types) as [chs|] eqn:Hc; [|discriminate].
  simpl.
  assert (Hchs : Forall (fun channel =>
                           snd channel <> []
                           /\ Forall (record_invariant
                                        (or_default included_types default_included_types)
                                        (or_default excluded_types default_excluded_types))
                                     (snd channel)) chs).
  { clear - Hc. revert chs Hc.
    induction blocks as [|[n c] bs IH]; simpl; intros chs H.
    - injection H as <-. constructor.
    - destruct (parse_filters_from_text float_of_str c q_type included_types
                  excluded_types) as [fs|] eqn:Hfs; [|discriminate].
      simpl in H.
      destruct (parse_channel_blocks float_of_str bs q_type included_types
                  excluded_types) as [rest|]; [|discriminate].
      simpl in H. injection H as <-.
      apply parse_chunks_invariant in Hfs.
      destruct fs as [|f fs]; [now apply IH|].
      constructor; [|now apply IH].
      split; [discriminate | exact Hfs]. }
  destruct (extract_shared_sub_block content) as [block|].
  - destruct (is_empty block).
    + simpl. intros H. injection H as <- <-. split; [exact Hchs | constructor].
    + destruct (parse_filters_from_text float_of_str block q_type included_types
                  excluded_types) as [fs|] eqn:Hfs; [|discriminate].
      simpl. intros H. injection H as <- <-.
      split; [exact Hchs | now apply parse_chunks_invariant in Hfs].
  - simpl. intros H. injection H as <- <-. split; [exact Hchs | constructor].
Qed.

Lemma parsed_records_invariant_witness :
  let bell := mk_filter "FL1" "Parametric EQ (RBJ)" "100" (Some "-3") "0.7"
                        (Some "0.7") (Some "0.7") in
  let allpass := mk_filter "FL2" "All-Pass Third-Order" "60" None "1.0" None None in
  let shared := mk_filter "FL9" "Parametric EQ" "100" (Some "-3") "0.7"
                          (Some "0.7") (Some "0.7") in
  parse_mso_content sample_float sample_document "rbj"
    (Some cli_default_include_types) None
  = Ok ([("Left", [bell; allpass])], [shared])
  /\ bell_shape bell
  /\ allpass_shape allpass
  /\ bell_shape shared.
Proof.
  cbv zeta.
  assert (Hparse :
            parse_mso_content sample_float sample_document "rbj"
              (Some cli_default_include_types) None
            = Ok ([("Left",
                    [mk_filter "FL1" "Parametric EQ (RBJ)" "100" (Some "-3") "0.7"
                               (Some "0.7") (Some "0.7");
                     mk_filter "FL2" "All-Pass Third-Order" "60" None "1.0" None None])],
                  [mk_filter "FL9" "Parametric EQ" "100" (Some "-3") "0.7"
                             (Some "0.7") (Some "0.7")]))
    by (vm_compute; reflexivity).
  destruct (parsed_records_invariant sample_float _ _ _ _ _ _ Hparse) as [Hch Hsh].
  split; [exact Hparse|].
  pose proof (Forall_inv Hch) as [_ Hleft]. simpl in Hleft.
  pose proof (Forall_inv Hleft) as (_ & _ & _ & Hbell).
  pose proof (Forall_inv (Forall_inv_tail Hleft)) as (_ & _ & _ & _ & Hap).
  pose proof (Forall_inv Hsh) as (_ & _ & _ & Hshared).
  split; [exact Hbell | split; [exact Hap | exact Hshared]].
Defined.

Lemma record_invariant_has_rule {float : Type} (included excluded : list string)
    (rs : list (filter_record float)) :
  Forall (record_invariant included excluded) rs -> filter has_rule rs = rs.
Proof.
  induction rs as [|r rs IH]; intros H; simpl; [reflexivity|].
  pose proof (Forall_inv H) as (_ & _ & _ & Hshape).
  assert (Hrule : has_rule r = true).
  { unfold has_rule. destruct (contains "Parametric EQ" (type r)); [reflexivity|].
    now destruct Hshape as [-> _]. }
  rewrite Hrule. f_equal. apply IH. exact (Forall_inv_tail H).
Qed.

(** X7: the records of one parsed text are all written by the emitter:
    as many lines as records, numbered from 1, and no exception. *)
Theorem parsed_records_all_written {float : Type}
    (float_of_str : string -> option float) (float_repr : float -> string)
    (text q_type : string) (included_types excluded_types : option (list string))
    (rs : list (filter_record float)) :
  parse_filters_from_text float_of_str text q_type included_types excluded_types = Ok rs ->
  exists bodies,
    write_filters float_repr rs 1 = (numbered 1 bodies, None)
    /\ length bodies = length rs.
Proof.
  intros H.
  pose proof (parse_filters_gain_present float_of_str _ _ _ _ _ H) as Hgain.
  pose proof (record_invariant_has_rule _ _ _
                (parse_chunks_invariant float_of_str _ _ _ _ _ H)) as Hrule.
  destruct (write_filters_numbered float_repr rs 1) as (bodies & Hl & _ & Hok).
  destruct (Hok Hgain) as [He Hlen].
  exists bodies. split.
  - destruct (write_filters float_repr rs 1) as [written e]. simpl in *. now subst.
  - rewrite Hlen. now rewrite Hrule.
Qed.

Lemma parsed_records_all_written_witness :
  let text := lines (peq_chunk "FL1" "Parametric EQ"
                     ++ allpass_chunk "FL3" "All-Pass First-Order")%list in
  exists rs bodies,
    parse_filters_from_text sample_float text "rbj" (Some cli_default_include_types) None
    = Ok rs
    /\ length rs = 2
    /\ write_filters sample_repr rs 1 = (numbered 1 bodies, None)
    /\ length bodies = 2.
Proof.
  cbv zeta.
  assert (Hparse :
            parse_filters_from_text sample_float
              (lines (peq_chunk "FL1" "Parametric EQ"
                      ++ allpass_chunk "FL3" "All-Pass First-Order")%list)
              "rbj" (Some cli_default_include_types) None
            = Ok [mk_filter "FL1" "Parametric EQ" "100" (Some "-3") "0.7"
                            (Some "0.7") (Some "0.7");
                  mk_filter "FL3" "All-Pass First-Order" "60" None "1.0" None None])
    by (vm_compute; reflexivity).
  destruct (parsed_records_all_written sample_float sample_repr _ _ _ _ _ Hparse)
    as (bodies & Hw & Hlen).
  eexists. exists bodies. split; [exact Hparse|].
  split; [reflexivity | split; [exact Hw | exact Hlen]].
Defined.

(** ** All-pass chunks *)

(** X8: for a chunk whose type contains All-Pass and not Parametric EQ, a
    record is produced only if the frequency of 180 degrees phase and the
    all-pass Q are both found by their patterns, and it has no gain and
    no RBJ or classic Q; if one of the two is not found the chunk gives no
    record; and the Q type has no effect on what the chunk gives. *)
Theorem allpass_chunk_record {float : Type}
    (float_of_str : string -> option float)
    (block q_type : string) (included excluded : list string)
    (filter_name filter_type parameters : string) :
  chunk_parts block = Some (filter_name, filter_type, parameters) ->
  contains "Parametric EQ" filter_type = false ->
  contains "All-Pass" filter_type = true ->
  (forall r,
      parse_chunk float_of_str block q_type included excluded = Ok (Some r) ->
      search_allpass_freq parameters <> None
      /\ search_allpass_q parameters <> None
      /\ allpass_shape r)
  /\ (search_allpass_freq parameters = None \/ search_allpass_q parameters = None ->
      parse_chunk float_of_str block q_type included excluded = Ok None)
  /\ (forall other_q_type,
         parse_chunk float_of_str block other_q_type included excluded
         = parse_chunk float_of_str block q_type included excluded).
Proof.
  intros Hparts Hp Ha. split; [|split].
  - intros r H.
    apply parse_chunk_inv in H as (n & t & p & Hparts' & _ & _ & Hr).
    rewrite Hparts in Hparts'. injection Hparts' as <- <- <-.
    destruct Hr as [[Hp' _]|(_ & _ & Hr)]; [congruence|].
    apply parse_allpass_record in Hr as (ft & qt & f & qv & Hf & Hq & _ & _ & ->).
    rewrite Hf, Hq. repeat split; discriminate.
  - intros Hmiss. unfold parse_chunk. rewrite Hparts, Hp, Ha.
    assert (Hnone : parse_allpass_parameters float_of_str filter_name filter_type
                      parameters = Ok None).
    { unfold parse_allpass_parameters. destruct Hmiss as [->| ->]; [reflexivity|].
      now destruct (search_allpass_freq parameters). }
    rewrite Hnone. now destruct (negb _).
  - intros other. unfold parse_chunk. rewrite Hparts, Hp, Ha. reflexivity.
Qed.

Lemma allpass_chunk_record_witness :
  let block := lines (allpass_chunk "FL2" "All-Pass Second-Order") in
  parse_chunk sample_float block "classic" ["All-Pass"] default_excluded_types
  = Ok (Some (mk_filter "FL2" "All-Pass Second-Order" "60" None "1.0" None None))
  /\ parse_chunk sample_float (lines ["FL2: All-Pass Second-Order"]) "rbj"
       ["All-Pass"] default_excluded_types = Ok None.
Proof.
  cbv zeta.
  destruct (allpass_chunk_record sample_float
              (lines (allpass_chunk "FL2" "All-Pass Second-Order")) "rbj"
              ["All-Pass"] default_excluded_types
              "FL2" "All-Pass Second-Order"
              (lines (tl (allpass_chunk "FL2" "All-Pass Second-Order")))
              eq_refl eq_refl eq_refl) as (_ & _ & Hq).
  destruct (allpass_chunk_record sample_float
              (lines ["FL2: All-Pass Second-Order"]) "rbj"
              ["All-Pass"] default_excluded_types
              "FL2" "All-Pass Second-Order" EmptyString
              eq_refl eq_refl eq_refl) as (_ & Hmiss & _).
  split.
  - rewrite (Hq "classic"). reflexivity.
  - apply Hmiss. left. reflexivity.
Defined.

(** ** Classic Q beside RBJ Q *)

Section ClassicAndRbj.

Context {float : Type}.
Variable float_of_str : string -> option float.

Lemma same_but_q_refl (r : filter_record float) : same_but_q r r.
Proof. now repeat split. Qed.

Lemma parse_peq_classic_rbj (filter_name filter_type parameters : string) :
  contains "Parametric EQ" filter_type = true ->
  same_outcome (option_rel differs_in_q_only)
    (parse_parametric_eq_parameters float_of_str filter_name filter_type parameters
       "classic")
    (parse_parametric_eq_parameters float_of_str filter_name filter_type parameters
       "rbj").
Proof.
  intros Hp. unfold parse_parametric_eq_parameters.
  destruct (search_center_freq parameters) as [ft|]; [|exact I].
  destruct (search_boost parameters) as [gt|]; [|exact I].
  destruct (search_q_rbj parameters) as [qt|]; [|exact I].
  destruct (to_float float_of_str ft) as [f|]; [|reflexivity].
  destruct (to_float float_of_str gt) as [g|]; [|reflexivity].
  destruct (to_float float_of_str qt) as [qr|]; [|reflexivity].
  simpl.
  destruct (search_q_classic parameters) as [ct|].
  - destruct (to_float float_of_str ct) as [qc|]; [|reflexivity].
    simpl. unfold differs_in_q_only, same_but_q. simpl. rewrite Hp.
    now repeat split.
  - simpl. unfold differs_in_q_only, same_but_q. simpl. rewrite Hp.
    now repeat split.
Qed.

Lemma parse_allpass_same (filter_name filter_type parameters : string) :
  contains "Parametric EQ" filter_type = false ->
  same_outcome (option_rel differs_in_q_only)
    (parse_allpass_parameters float_of_str filter_name filter_type parameters)
    (parse_allpass_parameters float_of_str filter_name filter_type parameters).
Proof.
  intros Hp.
  destruct (parse_allpass_parameters float_of_str filter_name filter_type parameters)
    as [[r|]|] eqn:E; simpl; auto.
  apply parse_allpass_record in E as (ft & qt & f & qv & _ & _ & _ & _ & ->).
  unfold differs_in_q_only. simpl. rewrite Hp.
  split; [apply same_but_q_refl | reflexivity].
Qed.

Lemma parse_chunk_classic_rbj (block : string) (included excluded : list string) :
  same_outcome (option_rel differs_in_q_only)
    (parse_chunk float_of_str block "classic" included excluded)
    (parse_chunk float_of_str block "rbj" included excluded).
Proof.
  unfold parse_chunk.
  destruct (chunk_parts block) as [[[n t] p]|]; [|exact I].
  destruct (negb _); [exact I|].
  destruct (contains "Parametric EQ" t) eqn:Hp.
  - now apply parse_peq_classic_rbj.
  - destruct (contains "All-Pass" t); [now apply parse_allpass_same | exact I].
Qed.

Lemma parse_chunks_classic_rbj (blocks : list string) (included excluded : list string) :
  same_outcome (Forall2 differs_in_q_only)
    (parse_chunks float_of_str blocks "classic" included excluded)
    (parse_chunks float_of_str blocks "rbj" included excluded).
Proof.
  induction blocks as [|b bs IH]; simpl; [constructor|].
  pose proof (parse_chunk_classic_rbj b included excluded) as Hb.
  destruct (parse_chunk float_of_str b "classic" included excluded) as [oc|ec],
           (parse_chunk float_of_str b "rbj" included excluded) as [orr|er];
    simpl in Hb |- *; try contradiction; [|exact Hb].
  destruct (parse_chunks float_of_str bs "classic" included excluded) as [cs|ec],
           (parse_chunks float_of_str bs "rbj" included excluded) as [rs|er];
    simpl in IH |- *; try contradiction; [|exact IH].
  destruct oc as [c|], orr as [r|]; simpl in Hb; try contradiction.
  - now constructor.
  - exact IH.
Qed.

End ClassicAndRbj.

(** X9: reading a document with the Q type classic instead of rbj
    changes nothing but the [q] of Parametric EQ records: either both
    readings raise the same exception, or they return the same channels in
    the same order, with as many records each, and as many shared records,
    which agree pairwise on every other key; the [q] of a Parametric EQ
    record is its classic Q in the one reading and its RBJ Q in the other,
    and the [q] of any other record is the same in both. *)
Theorem classic_changes_q_only {float : Type}
    (float_of_str : string -> option float) (content : string)
    (included_types excluded_types : option (list string)) :
  same_outcome
    (fun with_classic with_rbj =>
       Forall2 (fun a b => fst a = fst b
                           /\ Forall2 differs_in_q_only (snd a) (snd b))
               (fst with_classic) (fst with_rbj)
       /\ Forall2 differs_in_q_only (snd with_classic) (snd with_rbj))
    (parse_mso_content float_of_str content "classic" included_types excluded_types)
    (parse_mso_content float_of_str content "rbj" included_types excluded_types).
Proof.
  unfold parse_mso_content.
  generalize (extract_channel_blocks content) as blocks. intros blocks.
  assert (Hchannels :
            same_outcome
              (Forall2 (fun a b => fst a = fst b
                                   /\ Forall2 differs_in_q_only (snd a) (snd b)))
              (parse_channel_blocks float_of_str blocks "classic" included_types
                 excluded_types)
              (parse_channel_blocks float_of_str blocks "rbj" included_types
                 excluded_types)).
  { induction blocks as [|[n c] bs IH]; simpl; [constructor|].
    pose proof (parse_chunks_classic_rbj float_of_str (split_filter_blocks c)
                  (or_default included_types default_included_types)
                  (or_default excluded_types default_excluded_types)) as Hc.
    unfold parse_filters_from_text.
    destruct (parse_chunks float_of_str (split_filter_blocks c) "classic" _ _)
      as [cs|ec],
      (parse_chunks float_of_str (split_filter_blocks c) "rbj" _ _) as [rs|er];
      simpl in Hc |- *; try contradiction; [|exact Hc].
    destruct (parse_channel_blocks float_of_str bs "classic" included_types
                excluded_types) as [chc|ec],
             (parse_channel_blocks float_of_str bs "rbj" included_types
                excluded_types) as [chr|er];
      simpl in IH |- *; try contradiction; [|exact IH].
    destruct Hc as [|c0 r0 cs' rs' H0 Hrest]; [exact IH|].
    constructor; [|exact IH].
    split; [reflexivity | now constructor]. }
  destruct (parse_channel_blocks float_of_str blocks "classic" included_types
              excluded_types) as [chc|ec],
           (parse_channel_blocks float_of_str blocks "rbj" included_types
              excluded_types) as [chr|er];
    simpl in Hchannels |- *; try contradiction; [|exact Hchannels].
  destruct (extract_shared_sub_block content) as [block|]; [|now split].
  destruct (is_empty block); [now split|].
  pose proof (parse_chunks_classic_rbj float_of_str (split_filter_blocks block)
                (or_default included_types default_included_types)
                (or_default excluded_types default_excluded_types)) as Hs.
  unfold parse_filters_from_text.
  destruct (parse_chunks float_of_str (split_filter_blocks block) "classic" _ _)
    as [cs|ec],
    (parse_chunks float_of_str (split_filter_blocks block) "rbj" _ _) as [rs|er];
    simpl in Hs |- *; try contradiction; [now split | exact Hs].
Qed.

Lemma classic_changes_q_only_example :
  let text := lines (peq_chunk "FL1" "Parametric EQ"
                     ++ [(quoted "Classic" ++ " Q = 0.9")%string]
                     ++ allpass_chunk "FL2" "All-Pass Second-Order")%list in
  let selected_q q_type :=
    match parse_filters_from_text sample_float text q_type
            (Some cli_default_include_types) None with
    | Ok rs => map (@q _) rs
    | Raise _ => []
    end in
  selected_q "classic" = ["0.9"; "1.0"] /\ selected_q "rbj" = ["0.7"; "1.0"].
Proof. split; reflexivity. Qed.

(** ** The emitter on a sequence made of two parts *)

Section EmitterParts.

Context {float : Type}.
Variable float_repr : float -> string.

Lemma write_filters_app (a b : list (filter_record float)) (n : nat) :
  Forall gain_present a ->
  write_filters float_repr (a ++ b) n
  = ((fst (write_filters float_repr a n)
      ++ fst (write_filters float_repr b (n + length (filter has_rule a))))%list,
     snd (write_filters float_repr b (n + length (filter has_rule a)))).
Proof.
  revert n. induction a as [|r a IH]; intros n Hall.
  - simpl. rewrite Nat.add_0_r.
    now destruct (write_filters float_repr b n).
  - pose proof (Forall_inv Hall) as Hr. pose proof (Forall_inv_tail Hall) as Ha.
    destruct (has_rule r) eqn:Hrule.
    + assert (Hlen : n + length (filter has_rule (r :: a))
                     = S n + length (filter has_rule a)).
      { simpl. rewrite Hrule. simpl. lia. }
      rewrite Hlen. unfold has_rule in Hrule.
      cbn [app write_filters].
      destruct (contains "Parametric EQ" (type r)) eqn:Hp.
      * destruct (gain r) as [g|] eqn:Hg; [|exfalso; now apply (Hr Hp)].
        rewrite (IH (S n) Ha).
        destruct (write_filters float_repr a (S n)). reflexivity.
      * simpl in Hrule. rewrite Hrule.
        rewrite (IH (S n) Ha).
        destruct (write_filters float_repr a (S n)). reflexivity.
    + assert (Hlen : length (filter has_rule (r :: a)) = length (filter has_rule a)).
      { simpl. now rewrite Hrule. }
      rewrite Hlen.
      change ((r :: a) ++ b)%list with (r :: (a ++ b))%list.
      rewrite !(write_filters_no_rule float_repr r _ n Hrule).
      exact (IH n Ha).
Qed.

End EmitterParts.

Lemma concat_all_cons (x : string) (xs : list string) :
  concat_all (x :: xs) = x ++ concat_all xs.
Proof.
  unfold concat_all. destruct xs as [|y ys]; simpl; [now rewrite append_nil_r|].
  reflexivity.
Qed.

Lemma concat_all_app (xs ys : list string) :
  concat_all (xs ++ ys) = concat_all xs ++ concat_all ys.
Proof.
  induction xs as [|x xs IH]; [reflexivity|].
  change ((x :: xs) ++ ys)%list with (x :: (xs ++ ys))%list.
  now rewrite !concat_all_cons, IH, append_assoc.
Qed.

(** X10: in a file that combines two sequences of records, the second
    sequence is numbered on from where the first one stops: when the
    records of the first sequence carry their gains, the lines written for
    the two sequences together are the lines of the first, numbered from
    [n], followed by the lines of the second, numbered from [n] plus the
    number of records of the first that have a rendering rule; the text
    of the file is the header, the lines of the first sequence from 1, and
    the lines of the second from where the first stops. *)
Theorem numbering_continues_across_parts {float : Type} (float_repr : float -> string)
    (today channel_name equaliser_name : string)
    (first second : list (filter_record float)) (n : nat) :
  Forall gain_present first ->
  write_filters float_repr (first ++ second) n
  = ((fst (write_filters float_repr first n)
      ++ fst (write_filters float_repr second
                (n + length (filter has_rule first))))%list,
     snd (write_filters float_repr second (n + length (filter has_rule first))))
  /\ document float_repr today (first ++ second) channel_name equaliser_name
     = header today channel_name equaliser_name
       ++ concat_all (fst (write_filters float_repr first 1))
       ++ concat_all (fst (write_filters float_repr second
                             (1 + length (filter has_rule first)))).
Proof.
  intros Hall. split.
  - now apply write_filters_app.
  - unfold document. rewrite (write_filters_app float_repr first second 1 Hall).
    cbn [fst]. now rewrite concat_all_app.
Qed.

Lemma numbering_continues_across_parts_witness :
  let shared := [mk_filter "FL9" "Parametric EQ" "30" (Some "2") "5" (Some "5") (Some "4");
                 mk_filter "FL8" "Delay Block" "1" None "1" None None] in
  let own := [mk_filter "FL1" "All-Pass First-Order" "60" None "1.0" None None] in
  fst (write_filters sample_repr (shared ++ own) 1)
  = [ "Filter 1: ON Bell Fc 30 Hz Gain 2 dB Q 5" ++ nl;
      "Filter 2: ON All Pass Order 1 Fc 60 Hz Gain 0 dB Q 1.0" ++ nl ].
Proof.
  cbv zeta.
  destruct (numbering_continues_across_parts sample_repr "20240101" "Left" "StormAudio"
              [mk_filter "FL9" "Parametric EQ" "30" (Some "2") "5" (Some "5") (Some "4");
               mk_filter "FL8" "Delay Block" "1" None "1" None None]
              [mk_filter "FL1" "All-Pass First-Order" "60" None "1.0" None None] 1)
    as [Hw _].
  - repeat constructor; unfold gain_present; simpl; discriminate.
  - rewrite Hw. reflexivity.
Defined.

(** X11: a record with Parametric EQ in its type and no gain stops the
    emitter with [KeyError]: the lines of the records before it are
    written, nothing is written for it or for the records after it, and
    the file that was opened keeps the header and those lines. *)
Theorem missing_gain_stops_emitter {float : Type} (float_repr : float -> string)
    (today : string) (open_for_write : string -> option exn)
    (before after : list (filter_record float)) (r : filter_record float)
    (n : nat) (output_file channel_name equaliser_name : string) :
  Forall gain_present before ->
  contains "Parametric EQ" (type r) = true ->
  gain r = None ->
  write_filters float_repr (before ++ r :: after) n
  = (fst (write_filters float_repr before n), Some KeyError)
  /\ (open_for_write output_file = None ->
      write_storm_audio_format float_repr today open_for_write
        (before ++ r :: after) output_file channel_name equaliser_name
      = ([mk_write output_file channel_name (before ++ r :: after)%list
                   (header today channel_name equaliser_name
                    ++ concat_all (fst (write_filters float_repr before 1)))],
         Some KeyError)).
Proof.
  intros Hall Hp Hg.
  assert (Hstop : forall m,
             write_filters float_repr (before ++ r :: after) m
             = (fst (write_filters float_repr before m), Some KeyError)).
  { intros m. rewrite (write_filters_app float_repr before (r :: after) m Hall).
    simpl. rewrite Hp, Hg. simpl. now rewrite app_nil_r. }
  split; [apply Hstop|].
  intros Hopen. unfold write_storm_audio_format. rewrite Hopen, Hstop. reflexivity.
Qed.

Lemma missing_gain_stops_emitter_witness :
  let good := mk_filter "FL1" "Parametric EQ" "100" (Some "-3") "0.7"
                        (Some "0.7") (Some "0.7") in
  let bad := mk_filter "FL2" "Parametric EQ" "60" None "1.0" None None in
  write_filters sample_repr [good; bad; good] 1
  = (["Filter 1: ON Bell Fc 100 Hz Gain -3 dB Q 0.7" ++ nl], Some KeyError).
Proof.
  cbv zeta.
  destruct (missing_gain_stops_emitter sample_repr "20240101" (fun _ => None)
              [mk_filter "FL1" "Parametric EQ" "100" (Some "-3") "0.7"
                         (Some "0.7") (Some "0.7")]
              [mk_filter "FL1" "Parametric EQ" "100" (Some "-3") "0.7"
                         (Some "0.7") (Some "0.7")]
              (mk_filter "FL2" "Parametric EQ" "60" None "1.0" None None)
              1 "out.txt" "Left" "StormAudio") as [Hw _].
  - repeat constructor; unfold gain_present; simpl; discriminate.
  - reflexivity.
  - reflexivity.
  - exact Hw.
Defined.

(** ** Whole runs *)

Section WholeRuns.

Context {float : Type}.
Variable float_of_str : string -> option float.
Variable float_repr : float -> string.

Lemma write_channels_no_shared (E : env)
    (channels : list (string * list (filter_record float)))
    (output_folder equaliser_name : string) (combine_shared : bool) :
  write_channels float_repr E channels [] output_folder equaliser_name combine_shared
  = write_channels float_repr E channels [] output_folder equaliser_name false.
Proof.
  induction channels as [|[name filters] rest IH]; simpl; [reflexivity|].
  rewrite IH. now rewrite andb_false_r.
Qed.

Lemma parse_chunks_raise (blocks : list string) (block q_type : string)
    (included excluded : list string) (e : exn) :
  In block blocks ->
  parse_chunk float_of_str block q_type included excluded = Raise e ->
  exists e', parse_chunks float_of_str blocks q_type included excluded = Raise e'.
Proof.
  intros Hin Hraise. induction blocks as [|b bs IH]; [destruct Hin|].
  simpl. destruct (parse_chunk float_of_str b q_type included excluded) as [o|e0] eqn:Hb.
  - destruct Hin as [->|Hin]; [congruence|].
    destruct (IH Hin) as (e' & ->). now exists e'.
  - now exists e0.
Qed.

Lemma parse_channel_blocks_raise (blocks : list (string * string))
    (channel_name channel_text q_type : string)
    (included excluded : option (list string)) (e : exn) :
  In (channel_name, channel_text) blocks ->
  parse_filters_from_text float_of_str channel_text q_type included excluded = Raise e ->
  exists e',
    parse_channel_blocks float_of_str blocks q_type included excluded = Raise e'.
Proof.
  intros Hin Hraise. induction blocks as [|[n c] bs IH]; [destruct Hin|].
  simpl.
  destruct (parse_filters_from_text float_of_str c q_type included excluded)
    as [fs|e0] eqn:Hc.
  - destruct Hin as [Heq|Hin]; [injection Heq as -> ->; congruence|].
    destruct (IH Hin) as (e' & ->). now exists e'.
  - now exists e0.
Qed.

End WholeRuns.

(** X12: the files of a run in which nothing fails.  When the parse
    returns, the output folder can be made and every output file can be
    opened, the run writes one file per channel that has records, in the
    order of the mapping, each named after its channel and holding the
    records of the channel (after the shared records when they are
    combined in), and then, when there are shared records and they are not
    combined in, the file of the shared records; nothing else is written
    and no exception is caught. *)
Theorem files_of_a_run_without_failure {float : Type}
    (float_of_str : string -> option float) (float_repr : float -> string) (E : env)
    (input_file output_folder q_type equaliser_name : string)
    (included excluded : option (list string)) (combine_shared : bool)
    (channels : list (string * list (filter_record float)))
    (shared_sub : list (filter_record float)) :
  parse_mso_file float_of_str E input_file q_type included excluded
  = Ok (channels, shared_sub) ->
  makedirs E output_folder = None ->
  (forall path, open_for_write E path = None) ->
  convert_mso_to_storm_audio float_of_str float_repr E input_file output_folder
    q_type equaliser_name included excluded combine_shared
  = ((map (channel_event float_repr (today E) shared_sub output_folder
             equaliser_name combine_shared) channels
      ++ (if nonempty shared_sub && negb combine_shared
          then [shared_event float_repr (today E) shared_sub output_folder
                  equaliser_name]
          else []))%list,
     None).
Proof.
  intros Hparse Hdirs Hopen.
  pose proof Hparse as Hok. unfold parse_mso_file in Hok.
  destruct (read_input E input_file) as [content|]; [|discriminate].
  simpl in Hok. apply parse_mso_content_ok in Hok as [Hch Hgain].
  unfold convert_mso_to_storm_audio. rewrite Hdirs, Hparse.
  rewrite (write_channels_ok float_repr E channels shared_sub output_folder
             equaliser_name combine_shared Hopen Hch Hgain).
  destruct (nonempty shared_sub && negb combine_shared).
  - rewrite (write_file_ok float_repr E shared_sub _ shared_label equaliser_name
               (Hopen _) Hgain).
    reflexivity.
  - now rewrite app_nil_r.
Qed.

Lemma files_of_a_run_without_failure_witness :
  map (@w_file _)
    (fst (convert_mso_to_storm_audio sample_float sample_repr
            (quiet_env sample_document) "filters.mso" "out" "rbj" "StormAudio"
            (Some cli_default_include_types) None false))
  = ["out/Left_filters.txt"; "out/shared_sub_filters.txt"].
Proof.
  rewrite (files_of_a_run_without_failure sample_float sample_repr
             (quiet_env sample_document) "filters.mso" "out" "rbj" "StormAudio"
             (Some cli_default_include_types) None false
             [("Left",
               [mk_filter "FL1" "Parametric EQ (RBJ)" "100" (Some "-3") "0.7"
                          (Some "0.7") (Some "0.7");
                mk_filter "FL2" "All-Pass Third-Order" "60" None "1.0" None None])]
             [mk_filter "FL9" "Parametric EQ" "100" (Some "-3") "0.7"
                        (Some "0.7") (Some "0.7")]).
  - reflexivity.
  - vm_compute. reflexivity.
  - reflexivity.
  - intros path. reflexivity.
Defined.

(** X13: when the parse returns no shared record, the run with
    [combine_shared] set is the run with [combine_shared] not set: the same
    files with the same texts, and the same exception if any. *)
Theorem combining_nothing_changes_nothing {float : Type}
    (float_of_str : string -> option float) (float_repr : float -> string) (E : env)
    (input_file output_folder q_type equaliser_name : string)
    (included excluded : option (list string))
    (channels : list (string * list (filter_record float))) :
  parse_mso_file float_of_str E input_file q_type included excluded
  = Ok (channels, []) ->
  convert_mso_to_storm_audio float_of_str float_repr E input_file output_folder
    q_type equaliser_name included excluded true
  = convert_mso_to_storm_audio float_of_str float_repr E input_file output_folder
      q_type equaliser_name included excluded false.
Proof.
  intros Hparse. unfold convert_mso_to_storm_audio.
  destruct (makedirs E output_folder); [reflexivity|].
  rewrite Hparse.
  rewrite (write_channels_no_shared float_repr E channels output_folder
             equaliser_name true).
  destruct (write_channels float_repr E channels [] output_folder equaliser_name false)
    as [events [e|]]; reflexivity.
Qed.

Lemma combining_nothing_changes_nothing_witness :
  let run combine_shared :=
    convert_mso_to_storm_audio sample_float sample_repr
      (quiet_env channel_only_document) "filters.mso" "out" "rbj" "StormAudio"
      None None combine_shared in
  run true = run false
  /\ map (@w_file _) (fst (run true)) = ["out/Left_filters.txt"].
Proof.
  cbv zeta. split; [|reflexivity].
  apply (combining_nothing_changes_nothing sample_float sample_repr
           (quiet_env channel_only_document) "filters.mso" "out" "rbj" "StormAudio"
           None None
           [("Left",
             [mk_filter "FL1" "Parametric EQ" "100" (Some "-3") "0.7"
                        (Some "0.7") (Some "0.7")])]).
  vm_compute. reflexivity.
Defined.

(** X14: a number that [float] rejects stops the whole run before any
    file is written: when one chunk of one channel block raises while it is
    parsed, the run writes nothing, also for the other channels, and ends
    with an exception caught. *)
Theorem rejected_number_stops_the_run {float : Type}
    (float_of_str : string -> option float) (float_repr : float -> string) (E : env)
    (content input_file output_folder q_type equaliser_name : string)
    (included excluded : option (list string)) (combine_shared : bool)
    (channel_name channel_text block : string) (e : exn) :
  In (channel_name, channel_text) (extract_channel_blocks content) ->
  In block (split_filter_blocks channel_text) ->
  parse_chunk float_of_str block q_type
    (or_default included default_included_types)
    (or_default excluded default_excluded_types) = Raise e ->
  exists e',
    convert_mso_to_storm_audio float_of_str float_repr (with_input E content)
      input_file output_folder q_type equaliser_name included excluded combine_shared
    = ([], Some e').
Proof.
  intros Hchannel Hblock Hraise.
  rewrite convert_with_input.
  destruct (makedirs E output_folder) as [e0|]; [now exists e0|].
  destruct (parse_chunks_raise float_of_str _ _ _ _ _ _ Hblock Hraise) as (e1 & H1).
  destruct (parse_channel_blocks_raise float_of_str _ _ _ q_type included excluded e1
              Hchannel H1) as (e2 & H2).
  exists e2. unfold parse_mso_content. now rewrite H2.
Qed.

Lemma rejected_number_stops_the_run_witness :
  let bad := [ "FL2: Parametric EQ";
               (parameter "Center freq (Hz)" ++ "1.2.3")%string;
               (parameter "Boost (dB)" ++ "-3")%string;
               (parameter "Q (RBJ)" ++ "0.7")%string ] in
  let content := lines (channel_block "Left" (peq_chunk "FL1" "Parametric EQ")
                        ++ channel_block "Right" bad)%list in
  convert_mso_to_storm_audio sample_float sample_repr (with_input (quiet_env EmptyString) content)
    "filters.mso" "out" "rbj" "StormAudio" None None false
  = ([], Some ValueError).
Proof.
  cbv zeta.
  destruct (rejected_number_stops_the_run sample_float sample_repr
              (quiet_env EmptyString)
              (lines (channel_block "Left" (peq_chunk "FL1" "Parametric EQ")
                      ++ channel_block "Right"
                           [ "FL2: Parametric EQ";
                             (parameter "Center freq (Hz)" ++ "1.2.3")%string;
                             (parameter "Boost (dB)" ++ "-3")%string;
                             (parameter "Q (RBJ)" ++ "0.7")%string ])%list)
              "filters.mso" "out" "rbj" "StormAudio" None None false
              "Right"
              (lines [ "FL2: Parametric EQ";
                       (parameter "Center freq (Hz)" ++ "1.2.3")%string;
                       (parameter "Boost (dB)" ++ "-3")%string;
                       (parameter "Q (RBJ)" ++ "0.7")%string ])
              (lines [ "FL2: Parametric EQ";
                       (parameter "Center freq (Hz)" ++ "1.2.3")%string;
                       (parameter "Boost (dB)" ++ "-3")%string;
                       (parameter "Q (RBJ)" ++ "0.7")%string ])
              ValueError) as (e' & Hrun).
  - right. left. reflexivity.
  - left. reflexivity.
  - reflexivity.
  - rewrite Hrun. vm_compute in Hrun. injection Hrun as <-. reflexivity.
Defined.

(** ** The first chunk of the shared block *)

Lemma split_filter_blocks_head (c : ascii) (s : string) :
  is_newline c = false ->
  exists b bs, split_filter_blocks (String c s) = String c b :: bs
               /\ split_filter_blocks s = b :: bs.
Proof.
  intros Hc. destruct (split_filter_blocks_cons s) as (b & bs & E).
  exists b, bs. split; [|exact E].
  cbn [split_filter_blocks]. rewrite Hc, E. reflexivity.
Qed.

Lemma split_lines_head (c : ascii) (s : string) :
  is_newline c = false ->
  exists l ls, split_lines (String c s) = String c l :: ls.
Proof.
  intros Hc. cbn [split_lines]. rewrite Hc.
  destruct (split_lines s) as [|l ls]; now eexists; eexists.
Qed.

Lemma rstrip_head (c : ascii) (s : string) :
  is_space c = false -> rstrip (String c s) = String c (rstrip s).
Proof. intros Hc. cbn [rstrip]. now rewrite Hc. Qed.

(** A chunk that does not begin with the letter F, trimmed, is no filter. *)
Lemma chunk_parts_other_letter (c : ascii) (s : string) :
  is_space c = false -> is_newline c = false -> Ascii.eqb "F" c = false ->
  chunk_parts (String c s) = None.
Proof.
  intros Hs Hn Hf. unfold chunk_parts, strip, lstrip.
  cbn [drop_while]. rewrite Hs. rewrite (rstrip_head c s Hs).
  cbn [is_empty].
  destruct (split_lines_head c (rstrip s) Hn) as (l & ls & ->).
  unfold match_filter_header. cbn [starts_with]. now rewrite Hf.
Qed.

(** X15: the shared block that the extractor returns opens with the start
    phrase, so that its first chunk is never a filter: when the block is
    not empty, the first chunk of the block begins with the letter S, it
    gives no record and raises nothing, and the records of the block are
    those of the chunks after the first. *)
Theorem shared_block_first_chunk_is_skipped {float : Type}
    (float_of_str : string -> option float) (content block q_type : string)
    (included_types excluded_types : option (list string)) :
  extract_shared_sub_block content = Some block ->
  is_empty block = false ->
  exists first rest,
    split_filter_blocks block = String "S" first :: rest
    /\ chunk_parts (String "S" first) = None
    /\ parse_filters_from_text float_of_str block q_type included_types excluded_types
       = parse_chunks float_of_str rest q_type
           (or_default included_types default_included_types)
           (or_default excluded_types default_excluded_types).
Proof.
  intros Hx Hne.
  assert (Hblock : exists y, block = String "S" y).
  { unfold extract_shared_sub_block in Hx.
    destruct (find shared_start_phrase content) as [i|] eqn:Hi; [|discriminate].
    destruct (find shared_end_phrase content) as [j|] eqn:Hj; [|discriminate].
    injection Hx as <-.
    destruct (shared_marks_apart content i j Hi Hj) as [Hlt|Hge].
    - rewrite slice_empty in Hne by lia. discriminate.
    - rewrite (slice_from_start_phrase content i j Hi Hge), strip_after_start_phrase.
      eexists. reflexivity. }
  destruct Hblock as (y & ->).
  destruct (split_filter_blocks_head "S" y eq_refl) as (b & bs & Hsplit & _).
  exists b, bs.
  assert (Hnone : chunk_parts (String "S" b) = None)
    by (now apply chunk_parts_other_letter).
  split; [exact Hsplit | split; [exact Hnone|]].
  unfold parse_filters_from_text. rewrite Hsplit.
  apply (parse_chunks_skip float_of_str [] bs).
  unfold parse_chunk. now rewrite Hnone.
Qed.

Lemma shared_block_first_chunk_is_skipped_witness :
  let content :=
    lines ["Shared sub channel: FL1: Parametric EQ";
           (parameter "Center freq (Hz)" ++ "100")%string;
           (parameter "Boost (dB)" ++ "-3")%string;
           (parameter "Q (RBJ)" ++ "0.7")%string;
           "End shared sub channel"] in
  exists block,
    extract_shared_sub_block content = Some block
    /\ parse_filters_from_text sample_float block "rbj" None None = Ok [].
Proof.
  cbv zeta. eexists. split; [reflexivity|].
  match goal with
  | |- parse_filters_from_text _ ?b _ _ _ = _ =>
      destruct (shared_block_first_chunk_is_skipped sample_float
                  (lines ["Shared sub channel: FL1: Parametric EQ";
                          (parameter "Center freq (Hz)" ++ "100")%string;
                          (parameter "Boost (dB)" ++ "-3")%string;
                          (parameter "Q (RBJ)" ++ "0.7")%string;
                          "End shared sub channel"])
                  b "rbj" None None eq_refl eq_refl)
        as (first & rest & Hsplit & _ & Hparse)
  end.
  rewrite Hparse. vm_compute in Hsplit. injection Hsplit as _ <-. reflexivity.
Defined.

(** ** Where a parameter is read *)

Section SearchSemantics.

Variable lit : string.
Variable cls : ascii -> bool.

(** The test of the pattern at the head of a text. *)
Lemma match_here_some (s v : string) :
  (if starts_with lit s then
     let w := take_while cls (drop (String.length lit) s) in
     if is_empty w then None else Some w
   else None) = Some v ->
  exists c after, cls c = true /\ s = lit ++ String c after.
Proof.
  destruct (starts_with lit s) eqn:Hs; [|discriminate].
  apply starts_with_split in Hs. cbv zeta.
  destruct (drop (String.length lit) s) as [|c r] eqn:Hd; [discriminate|].
  cbn [take_while]. destruct (cls c) eqn:Hc; [|discriminate].
  intros _. exists c, r. split; [exact Hc | exact Hs].
Qed.

Lemma match_here_at (c : ascii) (after : string) :
  cls c = true ->
  (if starts_with lit (lit ++ String c after) then
     let w := take_while cls (drop (String.length lit) (lit ++ String c after)) in
     if is_empty w then None else Some w
   else None) = Some (take_while cls (String c after)).
Proof.
  intros Hc. rewrite starts_with_append. cbv zeta. rewrite drop_append_length.
  cbn [take_while]. now rewrite Hc.
Qed.

Lemma re_search_value_leftmost (s v : string) :
  re_search_value lit cls s = Some v ->
  exists before after,
    s = before ++ lit ++ v ++ after
    /\ is_empty v = false
    /\ take_while cls (v ++ after) = v
    /\ forall before' c after',
        cls c = true -> s = before' ++ lit ++ String c after' ->
        String.length before <= String.length before'.
Proof.
  induction s as [|a s IH]; rewrite re_search_value_unfold.
  - destruct (if starts_with lit EmptyString then _ else _) as [w|] eqn:Hh;
      [|discriminate].
    intros H. injection H as ->.
    destruct (starts_with lit EmptyString) eqn:Hs; [|discriminate].
    cbv zeta in Hh. rewrite drop_nil in Hh. discriminate.
  - destruct (if starts_with lit (String a s) then _ else _) as [w|] eqn:Hh.
    + intros H. injection H as ->.
      destruct (starts_with lit (String a s)) eqn:Hs; [|discriminate].
      cbv zeta in Hh.
      destruct (is_empty (take_while cls (drop (String.length lit) (String a s))))
        eqn:Hv; [discriminate|].
      injection Hh as <-.
      exists EmptyString, (drop_while cls (drop (String.length lit) (String a s))).
      rewrite take_drop_while. cbn [append String.length].
      split; [now apply starts_with_split|].
      split; [exact Hv | split; [reflexivity | intros; lia]].
    + intros H. destruct (IH H) as (b & af & -> & Hne & Hrun & Hleft).
      exists (String a b), af.
      split; [reflexivity | split; [exact Hne | split; [exact Hrun|]]].
      intros [|a' b'] c af' Hc Hs.
      * exfalso. cbn [append] in Hs. rewrite Hs in Hh.
        rewrite (match_here_at c af' Hc) in Hh. discriminate.
      * cbn [append] in Hs. injection Hs as _ Hs.
        cbn [String.length]. apply le_n_S. exact (Hleft b' c af' Hc Hs).
Qed.

Lemma re_search_value_found (before v after : string) :
  is_empty v = false ->
  take_while cls (v ++ after) = v ->
  (forall before' c after',
      cls c = true -> before ++ lit ++ v ++ after = before' ++ lit ++ String c after' ->
      String.length before <= String.length before') ->
  re_search_value lit cls (before ++ lit ++ v ++ after) = Some v.
Proof.
  intros Hne Hrun. induction before as [|a b IH]; intros Hleft;
    rewrite re_search_value_unfold.
  - cbn [append]. rewrite starts_with_append. cbv zeta.
    rewrite drop_append_length, Hrun, Hne. reflexivity.
  - destruct (if starts_with lit (String a b ++ lit ++ v ++ after) then _ else _)
      as [w|] eqn:Hh.
    + exfalso. apply match_here_some in Hh as (c & af & Hc & Hs).
      pose proof (Hleft EmptyString c af Hc Hs) as Hle. simpl in Hle. lia.
    + cbn [append]. apply IH.
      intros b' c af' Hc Hs.
      assert (Hs' : String a b ++ lit ++ v ++ after
                    = String a b' ++ lit ++ String c af')
        by (cbn [append]; now rewrite Hs).
      pose proof (Hleft (String a b') c af' Hc Hs') as Hle.
      simpl in Hle. lia.
Qed.

End SearchSemantics.

(** X16: a parameter is read at the first place of the chunk body where
    its label is followed by a character of its class, and what is read is
    the longest run of characters of the class there: the search returns
    [v] exactly when the body is some text, the label, [v] and some text,
    with [v] not empty and ending where the run ends, and the label is
    followed by a character of the class nowhere earlier.  This holds of
    each of the six patterns of the two routines. *)
Theorem parameter_read_at_first_place (lit : string) (cls : ascii -> bool)
    (s v : string) :
  re_search_value lit cls s = Some v
  <-> exists before after,
        s = before ++ lit ++ v ++ after
        /\ is_empty v = false
        /\ take_while cls (v ++ after) = v
        /\ forall before' c after',
            cls c = true -> s = before' ++ lit ++ String c after' ->
            String.length before <= String.length before'.
Proof.
  split.
  - apply re_search_value_leftmost.
  - intros (before & after & -> & Hne & Hrun & Hleft).
    now apply re_search_value_found.
Qed.

Lemma parameter_read_at_first_place_witness :
  search_center_freq
    (lines [(parameter "Center freq (Hz)" ++ "100.5 Hz")%string;
            (parameter "Center freq (Hz)" ++ "200")%string])
  = Some "100.5".
Proof.
  apply (parameter_read_at_first_place (parameter "Center freq (Hz)") unsigned_class).
  exists EmptyString,
    (" Hz" ++ nl ++ parameter "Center freq (Hz)" ++ "200")%string.
  split; [reflexivity | split; [reflexivity | split; [reflexivity|]]].
  intros before' c after' _ _. apply Nat.le_0_l.
Defined.

(** ** Letter case of the include and exclude phrases *)

Lemma matches_any_lowered (phrases : list string) (filter_type : string) :
  matches_any phrases filter_type
  = existsb (fun lowered => contains lowered (lower filter_type)) (map lower phrases).
Proof.
  unfold matches_any. induction phrases as [|p ps IH]; simpl; [reflexivity|].
  now rewrite IH.
Qed.

(** X17: the letter case of the include and exclude phrases is of no
    consequence: two settings whose phrases are the same once put in small
    letters keep and drop the same chunks and give the same records. *)
Theorem phrases_match_whatever_their_case {float : Type}
    (float_of_str : string -> option float) (text q_type : string)
    (included included' excluded excluded' : list string) :
  map lower included = map lower included' ->
  map lower excluded = map lower excluded' ->
  parse_filters_from_text float_of_str text q_type (Some included) (Some excluded)
  = parse_filters_from_text float_of_str text q_type (Some included') (Some excluded').
Proof.
  intros Hi He. unfold parse_filters_from_text. cbn [or_default].
  generalize (split_filter_blocks text) as blocks.
  induction blocks as [|b bs IH]; [reflexivity|].
  cbn [parse_chunks]. rewrite IH. f_equal.
  unfold parse_chunk. destruct (chunk_parts b) as [[[n t] p]|]; [|reflexivity].
  now rewrite !(matches_any_lowered _ t), Hi, He.
Qed.

Lemma phrases_match_whatever_their_case_witness :
  let text := lines (peq_chunk "FL1" "Parametric EQ" ++ ["FL2: Gain Block"])%list in
  parse_filters_from_text sample_float text "rbj"
    (Some ["PARAMETRIC eq"]) (Some ["gain BLOCK"])
  = Ok [mk_filter "FL1" "Parametric EQ" "100" (Some "-3") "0.7"
                  (Some "0.7") (Some "0.7")].
Proof.
  cbv zeta.
  rewrite (phrases_match_whatever_their_case sample_float _ "rbj"
             ["PARAMETRIC eq"] ["Parametric EQ"] ["gain BLOCK"] ["Gain Block"]
             eq_refl eq_refl).
  reflexivity.
Defined.

(** ** Blank text *)

Lemma rstrip_empty_all_space (s : string) :
  rstrip s = EmptyString -> all_chars is_space s = true.
Proof.
  induction s as [|c s IH]; [reflexivity|].
  cbn [rstrip all_chars].
  destruct (is_space c) eqn:Hc; [|discriminate].
  destruct (rstrip s) eqn:Hr; [|discriminate].
  intros _. cbn [andb]. now apply IH.
Qed.

Lemma strip_empty_all_space (s : string) :
  strip s = EmptyString -> all_chars is_space s = true.
Proof.
  unfold strip, lstrip. induction s as [|c s IH]; [reflexivity|].
  cbn [drop_while all_chars]. destruct (is_space c) eqn:Hc.
  - exact IH.
  - intros H. apply rstrip_empty_all_space in H.
    cbn [all_chars] in H. rewrite Hc in H. discriminate.
Qed.

Lemma no_tag_in_blank (s : string) :
  all_chars is_space s = true -> at_filter_tag s = false.
Proof.
  destruct s as [|c s]; [reflexivity|].
  cbn [all_chars]. intros H. apply andb_true_iff in H as [Hc _].
  unfold at_filter_tag. cbn [starts_with].
  destruct (Ascii.eqb "F" c) eqn:Hf; [|reflexivity].
  apply Ascii.eqb_eq in Hf. subst c. discriminate.
Qed.

Lemma split_filter_blocks_blank (s : string) :
  all_chars is_space s = true -> split_filter_blocks s = [s].
Proof.
  induction s as [|c s IH]; [reflexivity|].
  cbn [all_chars]. intros H. apply andb_true_iff in H as [_ Hs].
  cbn [split_filter_blocks].
  rewrite (no_tag_in_blank s Hs), andb_false_r, (IH Hs). reflexivity.
Qed.

(** X18: a text that is empty or made of white space only gives no
    record and raises nothing, whatever the settings; a channel whose
    block is such a text is left out of what the parse returns. *)
Theorem blank_text_gives_no_record {float : Type}
    (float_of_str : string -> option float) (text q_type : string)
    (included_types excluded_types : option (list string)) :
  strip text = EmptyString ->
  parse_filters_from_text float_of_str text q_type included_types excluded_types = Ok []
  /\ forall channel_name rest,
      parse_channel_blocks float_of_str ((channel_name, text) :: rest) q_type
        included_types excluded_types
      = parse_channel_blocks float_of_str rest q_type included_types excluded_types.
Proof.
  intros Hblank.
  assert (Hnone : parse_filters_from_text float_of_str text q_type included_types
                    excluded_types = Ok []).
  { unfold parse_filters_from_text.
    rewrite (split_filter_blocks_blank text (strip_empty_all_space text Hblank)).
    cbn [parse_chunks]. unfold parse_chunk, chunk_parts. rewrite Hblank.
    reflexivity. }
  split; [exact Hnone|].
  intros channel_name rest. cbn [parse_channel_blocks]. rewrite Hnone.
  cbn [bind].
  now destruct (parse_channel_blocks float_of_str rest q_type included_types
                  excluded_types).
Qed.

Lemma blank_text_gives_no_record_witness :
  parse_mso_content sample_float
    (lines (channel_block "Empty" ["  "; " "]
            ++ channel_block "Left" (peq_chunk "FL1" "Parametric EQ"))%list)
    "rbj" None None
  = Ok ([("Left", [mk_filter "FL1" "Parametric EQ" "100" (Some "-3") "0.7"
                             (Some "0.7") (Some "0.7")])], []).
Proof.
  destruct (blank_text_gives_no_record sample_float EmptyString "rbj" None None eq_refl)
    as [_ Hskip].
  unfold parse_mso_content.
  change (extract_channel_blocks
            (lines (channel_block "Empty" ["  "; " "]
                    ++ channel_block "Left" (peq_chunk "FL1" "Parametric EQ"))%list))
    with [("Empty", EmptyString);
          ("Left", lines (peq_chunk "FL1" "Parametric EQ"))].
  cbv zeta. rewrite Hskip. reflexivity.
Defined.

(** ** Bell lines *)



(** ** The channels of the parse *)

Lemma parse_channel_blocks_names {float : Type}
    (float_of_str : string -> option float) (blocks : list (string * string))
    (q_type : string) (included excluded : option (list string))
    (channels : list (string * list (filter_record float))) :
  parse_channel_blocks float_of_str blocks q_type included excluded = Ok channels ->
  NoDup (map fst blocks) ->
  NoDup (map fst channels)
  /\ forall name, In name (map fst channels) -> In name (map fst blocks).
Proof.
  revert channels. induction blocks as [|[n c] bs IH]; simpl; intros channels H Hnd.
  - injection H as <-. split; [constructor | intros name []].
  - destruct (parse_filters_from_text float_of_str c q_type included excluded)
      as [fs|]; [|discriminate].
    simpl in H.
    destruct (parse_channel_blocks float_of_str bs q_type included excluded)
      as [rest|]; [|discriminate].
    simpl in H. injection H as <-.
    pose proof (proj2 (proj1 (NoDup_cons_iff n (map fst bs)) Hnd)) as Hnd'.
    destruct (IH rest eq_refl Hnd') as [Hrest Hsub].
    destruct fs as [|f fs].
    + split; [exact Hrest | intros name Hin; right; now apply Hsub].
    + simpl. split.
      * constructor; [|exact Hrest].
        intros Hin. apply Hsub in Hin.
        apply NoDup_cons_iff in Hnd as [Hnot _]. contradiction.
      * intros name [<-|Hin]; [now left | right; now apply Hsub].
Qed.

(** X20: the channels that the parse returns have pairwise distinct
    names, each of them the name of a block of the document, so that a run
    in which nothing fails writes no two channel files under the same
    label. *)
Theorem parsed_channels_are_distinct {float : Type}
    (float_of_str : string -> option float) (float_repr : float -> string)
    (content q_type : string) (included excluded : option (list string))
    (channels : list (string * list (filter_record float)))
    (shared_sub : list (filter_record float)) :
  parse_mso_content float_of_str content q_type included excluded
  = Ok (channels, shared_sub) ->
  NoDup (map fst channels)
  /\ (forall name,
         In name (map fst channels) ->
         In name (map fst (extract_channel_blocks content)))
  /\ forall today output_folder equaliser_name combine_shared,
      NoDup (map (@w_channel _)
               (map (channel_event float_repr today shared_sub output_folder
                       equaliser_name combine_shared) channels)).
Proof.
  unfold parse_mso_content.
  destruct (parse_channel_blocks float_of_str (extract_channel_blocks content)
              q_type included excluded) as [chs|] eqn:Hc; [|discriminate].
  simpl. intros H.
  assert (Hchs : chs = channels).
  { destruct (extract_shared_sub_block content) as [block|].
    - destruct (is_empty block); simpl in H; [now injection H|].
      destruct (parse_filters_from_text float_of_str block q_type included excluded);
        simpl in H; [now injection H | discriminate].
    - simpl in H. now injection H. }
  subst chs.
  assert (Hnd : NoDup (map fst (extract_channel_blocks content)))
    by (apply fold_channels_nodup; constructor).
  destruct (parse_channel_blocks_names float_of_str _ _ _ _ _ Hc Hnd) as [Hdistinct Hsub].
  split; [exact Hdistinct | split; [exact Hsub|]].
  intros today output_folder equaliser_name combine_shared.
  rewrite map_map. cbn [channel_event w_channel]. exact Hdistinct.
Qed.

Lemma parsed_channels_are_distinct_witness :
  let content :=
    lines (channel_block "Left" (peq_chunk "FL1" "Parametric EQ")
           ++ channel_block "Right" ["FL1: Gain Block"]
           ++ channel_block "Left" (peq_chunk "FL2" "Parametric EQ"))%list in
  exists channels,
    parse_mso_content sample_float content "rbj" None None = Ok (channels, [])
    /\ map fst channels = ["Left"]
    /\ NoDup (map fst channels).
Proof.
  cbv zeta.
  assert (Hparse :
            parse_mso_content sample_float
              (lines (channel_block "Left" (peq_chunk "FL1" "Parametric EQ")
                      ++ channel_block "Right" ["FL1: Gain Block"]
                      ++ channel_block "Left" (peq_chunk "FL2" "Parametric EQ"))%list)
              "rbj" None None
            = Ok ([("Left", [mk_filter "FL2" "Parametric EQ" "100" (Some "-3") "0.7"
                                       (Some "0.7") (Some "0.7")])], []))
    by (vm_compute; reflexivity).
  destruct (parsed_channels_are_distinct sample_float sample_repr _ _ _ _ _ _ Hparse)
    as [Hnd _].
  eexists. split; [exact Hparse | split; [reflexivity | exact Hnd]].
Defined.

(** ** A document without channel *)

Lemma findall_channels_none (s : string) (skip : nat) :
  (forall m, starts_with channel_open (drop m s) = false) ->
  findall_channels s skip = [].
Proof.
  revert skip. induction s as [|c s IH]; intros skip Hno; [reflexivity|].
  assert (Hs : forall m, starts_with channel_open (drop m s) = false)
    by (intros m; exact (Hno (S m))).
  cbn [findall_channels]. destruct skip as [|k]; [|now apply IH].
  pose proof (Hno 0) as Hhere. cbn [drop] in Hhere.
  unfold match_channel_at. rewrite Hhere. now apply IH.
Qed.

(** X21: a document in which the opening phrase of a channel block does
    not occur has no channel: the mapping is empty, the parse returns no
    channel, and a run writes at most the file of the shared records. *)
Theorem no_opening_phrase_no_channel {float : Type}
    (float_of_str : string -> option float) (float_repr : float -> string)
    (content : string) :
  contains channel_open content = false ->
  extract_channel_blocks content = []
  /\ (forall q_type included excluded channels shared_sub,
         parse_mso_content float_of_str content q_type included excluded
         = Ok (channels, shared_sub) ->
         channels = [])
  /\ forall E input_file output_folder q_type equaliser_name included excluded
            combine_shared ev,
      In ev (fst (convert_mso_to_storm_audio float_of_str float_repr
                    (with_input E content) input_file output_folder q_type
                    equaliser_name included excluded combine_shared)) ->
      w_file ev = path_join output_folder shared_file
      /\ w_channel ev = shared_label.
Proof.
  intros Hno.
  assert (Hmap : extract_channel_blocks content = []).
  { unfold extract_channel_blocks. rewrite findall_channels_none; [reflexivity|].
    unfold contains, find in Hno.
    destruct (find_from channel_open content 0) eqn:Hf; [discriminate|].
    exact (find_from_none _ _ _ Hf). }
  assert (Hparse : forall q_type included excluded,
             parse_mso_content float_of_str content q_type included excluded
             = (shared_sub <-
                  match extract_shared_sub_block content with
                  | Some block =>
                      if is_empty block then Ok []
                      else parse_filters_from_text float_of_str block q_type
                             included excluded
                  | None => Ok []
                  end ;;
                Ok ([], shared_sub))).
  { intros. unfold parse_mso_content. rewrite Hmap. reflexivity. }
  split; [exact Hmap | split].
  - intros q_type included excluded channels shared_sub. rewrite Hparse.
    destruct (match extract_shared_sub_block content with
              | Some _ => _ | None => _ end); simpl; [|discriminate].
    intros H. now injection H.
  - intros E input_file output_folder q_type equaliser_name included excluded
           combine_shared ev.
    rewrite convert_with_input, Hparse.
    destruct (makedirs E output_folder); [intros []|].
    destruct (match extract_shared_sub_block content with
              | Some _ => _ | None => _ end) as [shared_sub|]; simpl; [|intros []].
    destruct (nonempty shared_sub && negb combine_shared); [|intros []].
    pose proof (write_file_events float_repr E shared_sub
                  (path_join output_folder shared_file) shared_label equaliser_name ev)
      as Hev.
    destruct (write_file float_repr E shared_sub (path_join output_folder shared_file)
                shared_label equaliser_name) as [events e].
    simpl in *. intros Hin. destruct (Hev Hin) as (Hf & Hl & _). now split.
Qed.

Lemma no_opening_phrase_no_channel_witness :
  let content := lines (shared_block (peq_chunk "FL9" "Parametric EQ")) in
  extract_channel_blocks content = []
  /\ map (@w_file _)
       (fst (convert_mso_to_storm_audio sample_float sample_repr
               (with_input (quiet_env EmptyString) content)
               "filters.mso" "out" "rbj" "StormAudio" None None false))
     = ["out/shared_sub_filters.txt"].
Proof.
  cbv zeta.
  destruct (no_opening_phrase_no_channel sample_float sample_repr
              (lines (shared_block (peq_chunk "FL9" "Parametric EQ"))) eq_refl)
    as [Hmap _].
  split; [exact Hmap | reflexivity].
Defined.
